(** * EnergyTrack: the HTTP handlers of [backend/main.py]

    A shallow embedding of the request handlers of the energy log service
    and of the validation rule attached to the request body, together with
    the properties of the listing, creation and demo-seeding operations.

    The relational store is a pair of tables kept in insertion order; a
    handler is a function from the store to a result and a new store. *)

From stdpp Require Import base option list sorting strings numbers.

Local Open Scope string_scope.
Local Open Scope list_scope.
Local Open Scope Z_scope.

(** ** Time

    A [datetime] is a point in time counted in microseconds, the resolution
    of Python's [datetime]; [timedelta(minutes=n)] is the corresponding
    number of microseconds. *)

Definition datetime : Type := Z.

Definition timedelta (minutes : Z) : Z := minutes * 60000000.

(** ** Rows

    [backend/models.py] is not part of the sources at hand: the two row
    types follow the columns that [main.py] reads and writes. *)

Module User.
Record t : Type := mk { id : Z; secret_key : string }.
End User.

Module Entry.
Record t : Type := mk {
  id : Z;
  user_id : Z;
  timestamp : datetime;
  description : option string;
  energy : option Z
}.
End Entry.

#[global] Instance User_eq_dec : EqDecision User.t.
Proof. solve_decision. Defined.

#[global] Instance Entry_eq_dec : EqDecision Entry.t.
Proof. solve_decision. Defined.

(** ** Request and response shapes *)

(** [class EntryCreate(BaseModel)]: the body of a creation request once its
    fields have been read ([timestamp] is required, the other two default
    to [None]).  Python's [int] is unbounded, hence [Z]. *)
Module EntryCreate.
Record t : Type := mk {
  timestamp : datetime;
  description : option string;
  energy : option Z
}.
End EntryCreate.

(** [class EntryResponse(BaseModel)], filled from a row's attributes
    ([from_attributes = True]). *)
Module EntryResponse.
Record t : Type := mk {
  id : Z;
  timestamp : datetime;
  description : option string;
  energy : option Z
}.

Definition from_attributes (e : Entry.t) : t :=
  {| id := Entry.id e;
     timestamp := Entry.timestamp e;
     description := Entry.description e;
     energy := Entry.energy e |}.
End EntryResponse.

(** ** Errors and results *)

Inductive Error : Type :=
| HTTPException (status_code : Z) (detail : string)
| ValueError (msg : string)
| IntegrityError.

(** The status a client sees: an [HTTPException] carries its own, a
    [ValueError] raised by a model validator is reported as 422, and a
    storage error is a generic server error. *)
Definition status_code (e : Error) : Z :=
  match e with
  | HTTPException c _ => c
  | ValueError _ => 422
  | IntegrityError => 500
  end.

Inductive result (A : Type) : Type :=
| Ok (a : A)
| Raise (e : Error).
Arguments Ok {A} a.
Arguments Raise {A} e.

Definition is_Ok {A} (r : result A) : bool :=
  match r with Ok _ => true | Raise _ => false end.

(** ** The validator of [EntryCreate] *)

(** [EntryCreate.check_at_least_one], a [model_validator(mode="after")]:
    it sees the model with its fields set and either raises or returns
    the model itself. *)
Definition check_at_least_one (self : EntryCreate.t) : result EntryCreate.t :=
  if bool_decide (EntryCreate.description self = None)
     && bool_decide (EntryCreate.energy self = None)
  then Raise (ValueError "At least one of description or energy must be provided")
  else
    match EntryCreate.energy self with
    | Some e =>
        if (e <? 1) || (e >? 10)
        then Raise (ValueError "Energy must be between 1 and 10")
        else Ok self
    | None => Ok self
    end.

(** ** The store *)

Record DB : Type := mkDB {
  users : list User.t;
  entries : list Entry.t
}.

Definition empty_db : DB := {| users := []; entries := [] |}.

(** Modelled from the spec: the generated integer primary key of the two
    tables of [backend/models.py] ("id (integer, generated, primary key)").
    A new row receives one more than the largest key of its table, and 1 in
    an empty table. *)
Definition next_id (ids : list Z) : Z := 1 + foldr Z.max 0 ids.

(** ** Handlers

    A handler runs against the store of its session and either returns a
    value or raises; the store it leaves behind is returned in both cases. *)

Definition Handler (A : Type) : Type := DB → result A * DB.

Definition ret {A} (a : A) : Handler A := λ db, (Ok a, db).

Definition raise {A} (e : Error) : Handler A := λ db, (Raise e, db).

Definition bind {A B} (m : Handler A) (k : A → Handler B) : Handler B :=
  λ db,
    match m db with
    | (Ok a, db') => k a db'
    | (Raise e, db') => (Raise e, db')
    end.

Declare Scope handler_scope.
Delimit Scope handler_scope with handler.
Notation "x <- m ;; k" := (bind m (λ x, k))
  (at level 100, m at next level, right associativity) : handler_scope.
Notation "m ;;; k" := (bind m (λ _, k))
  (at level 100, right associativity) : handler_scope.
Local Open Scope handler_scope.

(** [db.query(User).filter(User.secret_key == secret).first()] *)
Definition query_user_first (secret : string) : Handler (option User.t) :=
  λ db, (Ok (head (filter (λ u, User.secret_key u = secret) (users db))), db).

(** The order of [Entry.timestamp.desc()]: [a] may come before [b]. *)
Definition timestamp_desc (a b : Entry.t) : Prop :=
  Entry.timestamp b ≤ Entry.timestamp a.

#[global] Instance timestamp_desc_dec : RelDecision timestamp_desc.
Proof. intros a b. unfold timestamp_desc. apply _. Defined.

(** [db.query(Entry).filter(Entry.user_id == uid)
      .order_by(Entry.timestamp.desc()).all()].
    The engine is free to return rows of equal timestamp in any order; the
    model sorts the table's rows with a merge sort. *)
Definition query_entries_desc (uid : Z) : Handler (list Entry.t) :=
  λ db,
    (Ok (merge_sort timestamp_desc
           (filter (λ e, Entry.user_id e = uid) (entries db))), db).

(** Modelled from the spec: [User()] followed by [db.add], [db.commit] and
    [db.refresh].  The model class of [backend/models.py] generates the
    secret key ("opaque unique token, generated at creation"); the token
    drawn for the new row is the argument [token], and the column being
    unique, the commit fails when the token is already taken. *)
Definition add_user (token : string) : Handler User.t :=
  λ db,
    if bool_decide (token ∈ map User.secret_key (users db))
    then (Raise IntegrityError, db)
    else
      let user := {| User.id := next_id (map User.id (users db));
                     User.secret_key := token |} in
      (Ok user, {| users := users db ++ [user]; entries := entries db |}).

(** [Entry(user_id=..., timestamp=..., description=..., energy=...)]
    followed by [db.add] and the flush that assigns its key. *)
Definition add_entry (user_id : Z) (timestamp : datetime)
    (description : option string) (energy : option Z) : Handler Entry.t :=
  λ db,
    let db_entry := {| Entry.id := next_id (map Entry.id (entries db));
                       Entry.user_id := user_id;
                       Entry.timestamp := timestamp;
                       Entry.description := description;
                       Entry.energy := energy |} in
    (Ok db_entry, {| users := users db; entries := entries db ++ [db_entry] |}).

(** [for x in l: body(x)] *)
Fixpoint for_each {A} (l : list A) (body : A → Handler unit) : Handler unit :=
  match l with
  | [] => ret tt
  | x :: l' => body x ;;; for_each l' body
  end.

Inductive Response : Type :=
| RedirectResponse (url : string)
| HTMLResponse (content : string).

(** [root] *)
Definition root : Handler Response := ret (RedirectResponse "/new").

(** [create_new_user] *)
Definition create_new_user (token : string) : Handler Response :=
  user <- add_user token ;;
  ret (RedirectResponse ("/u/" +:+ User.secret_key user)).

(** [get_user_page]; [index_html] is the content of the page file. *)
Definition get_user_page (index_html : string) (secret : string)
    : Handler Response :=
  user <- query_user_first secret ;;
  match user with
  | None => raise (HTTPException 404 "User not found")
  | Some _ => ret (HTMLResponse index_html)
  end.

(** [get_entries] *)
Definition get_entries (secret : string) : Handler (list Entry.t) :=
  user <- query_user_first secret ;;
  match user with
  | None => raise (HTTPException 404 "User not found")
  | Some user => query_entries_desc (User.id user)
  end.

(** [create_entry]: its argument [entry] is an [EntryCreate] that has
    already been built, hence validated. *)
Definition create_entry (secret : string) (entry : EntryCreate.t)
    : Handler Entry.t :=
  user <- query_user_first secret ;;
  match user with
  | None => raise (HTTPException 404 "User not found")
  | Some user =>
      add_entry (User.id user)
                (EntryCreate.timestamp entry)
                (EntryCreate.description entry)
                (EntryCreate.energy entry)
  end.

(** ** Routes

    What the two decorators of the entry routes add around their handler:
    the body of [POST /api/u/{secret}/entries] is turned into the
    [EntryCreate] that [create_entry] receives, which runs the model's
    validator before the handler is entered, and the value a handler
    returns is rendered through its [response_model]. *)

Definition GET_entries (secret : string) : Handler (list EntryResponse.t) :=
  entries <- get_entries secret ;;
  ret (map EntryResponse.from_attributes entries).

Definition POST_entries (secret : string) (body : EntryCreate.t)
    : Handler EntryResponse.t :=
  match check_at_least_one body with
  | Raise e => raise e
  | Ok entry =>
      db_entry <- create_entry secret entry ;;
      ret (EntryResponse.from_attributes db_entry)
  end.

(** ** Demo data *)

(** One dictionary of the [demo_entries] list. *)
Record DemoEntry : Type := mkDemo {
  minutes_ago : Z;
  demo_description : string;
  demo_energy : option Z
}.

Definition demo_entries : list DemoEntry := [
  mkDemo 5 "Just had coffee" (Some 6);
  mkDemo 45 "Woke up, feeling groggy" (Some 4);
  mkDemo 120 "Couldn't sleep well" (Some 3);
  mkDemo 180 "Late night snack - crackers" None;
  mkDemo 300 "Gaming session" (Some 5);
  mkDemo 420 "Dinner - pasta with pesto" None;
  mkDemo 540 "Afternoon walk" (Some 7);
  mkDemo 600 "Lunch - sandwich" None;
  mkDemo 720 "Morning meeting, tired" (Some 4);
  mkDemo 840 "Breakfast - oatmeal" (Some 6);
  mkDemo 1500 "McDonalds - 9 chicken mcnuggets" None;
  mkDemo 1515 "Extreme fatigue(!), brain turning off" (Some 2);
  mkDemo 1700 "Cheese bagel with chicken" None;
  mkDemo 1800 "Greek yogurt, mango, pecans" (Some 7);
  mkDemo 2880 "Sleep 9h, difficult to wake up" (Some 4);
  mkDemo 3000 "Bagel with scrambled eggs" None;
  mkDemo 3200 "Indomie with veggies" None;
  mkDemo 3400 "Focused work session" (Some 9);
  mkDemo 4320 "Woke up, black coffee" (Some 5);
  mkDemo 4500 "Pho for lunch" None;
  mkDemo 4680 "Afternoon slump" (Some 3);
  mkDemo 4800 "Evening cooking" (Some 6);
  mkDemo 5000 "Late night reading" (Some 5);
  mkDemo 5760 "Oatmeal with blueberries" (Some 6);
  mkDemo 5900 "Green tea, reading" (Some 7);
  mkDemo 6100 "Leftover pasta" None;
  mkDemo 6300 "Walk in the park" (Some 7);
  mkDemo 6500 "Salmon dinner" None;
  mkDemo 7200 "Slept in, croissant" (Some 6);
  mkDemo 7400 "Ramen for lunch" None;
  mkDemo 7600 "Vitamin D supplement" None;
  mkDemo 7800 "Stir fry tofu" None;
  mkDemo 8000 "Late night coding" (Some 4);
  mkDemo 8640 "Eggs and toast" (Some 7);
  mkDemo 8800 "Burrito bowl" None;
  mkDemo 9000 "Post-lunch crash" (Some 3);
  mkDemo 9200 "Espresso pick-me-up" (Some 6);
  mkDemo 9400 "Light dinner, soup" None
].

(** [create_demo_user]; [now] is the value of [datetime.utcnow()]. *)
Definition create_demo_user (token : string) (now : datetime)
    : Handler Response :=
  user <- add_user token ;;
  for_each demo_entries (λ entry_data,
    let timestamp := now - timedelta (minutes_ago entry_data) in
    add_entry (User.id user) timestamp
              (Some (demo_description entry_data))
              (demo_energy entry_data) ;;;
    ret tt) ;;;
  ret (RedirectResponse ("/u/" +:+ User.secret_key user)).


(** ** Requests and reachable stores

    The store only ever changes through the handlers.  [serve] runs one
    request and keeps the store it leaves. *)

Inductive Request : Type :=
| ReqRoot
| ReqNew (token : string)
| ReqDemo (token : string) (now : datetime)
| ReqPage (index_html secret : string)
| ReqList (secret : string)
| ReqCreate (secret : string) (body : EntryCreate.t).

Definition serve (r : Request) (db : DB) : DB :=
  match r with
  | ReqRoot => snd (root db)
  | ReqNew token => snd (create_new_user token db)
  | ReqDemo token now => snd (create_demo_user token now db)
  | ReqPage index_html secret => snd (get_user_page index_html secret db)
  | ReqList secret => snd (GET_entries secret db)
  | ReqCreate secret body => snd (POST_entries secret body db)
  end.

Inductive reachable : DB → Prop :=
| reachable_empty : reachable empty_db
| reachable_serve db r : reachable db → reachable (serve r db).

(** The integrity constraints of the two tables: every entry belongs to a
    user of the store, and keys and secret keys are not repeated. *)
Record db_ok (db : DB) : Prop := mk_db_ok {
  ok_foreign_key :
    Forall (λ e, Entry.user_id e ∈ map User.id (users db)) (entries db);
  ok_secret_keys : NoDup (map User.secret_key (users db));
  ok_user_ids : NoDup (map User.id (users db));
  ok_entry_ids : NoDup (map Entry.id (entries db))
}.

(** The rows that the loop of [create_demo_user] inserts for the user
    [uid], the first of them under the key [key] and each following one
    under the next integer. *)
Fixpoint seeded (uid : Z) (now : datetime) (key : Z)
    (rows : list DemoEntry) : list Entry.t :=
  match rows with
  | [] => []
  | d :: rows' =>
      {| Entry.id := key;
         Entry.user_id := uid;
         Entry.timestamp := now - timedelta (minutes_ago d);
         Entry.description := Some (demo_description d);
         Entry.energy := demo_energy d |}
      :: seeded uid now (key + 1) rows'
  end.

(** What a stored row owes to the dictionary it was made from. *)
Definition seeded_from (uid : Z) (now : datetime)
    (d : DemoEntry) (e : Entry.t) : Prop :=
  Entry.user_id e = uid
  ∧ Entry.timestamp e = now - timedelta (minutes_ago d)
  ∧ Entry.description e = Some (demo_description d)
  ∧ Entry.energy e = demo_energy d.

(** The row that [create_entry] stores for the user [uid]. *)
Definition inserted_row (uid : Z) (entry : EntryCreate.t) (db : DB) : Entry.t :=
  {| Entry.id := next_id (map Entry.id (entries db));
     Entry.user_id := uid;
     Entry.timestamp := EntryCreate.timestamp entry;
     Entry.description := EntryCreate.description entry;
     Entry.energy := EntryCreate.energy entry |}.

(** Strictly newer first. *)
Definition timestamp_strict_desc (a b : Entry.t) : Prop :=
  Entry.timestamp b < Entry.timestamp a.

(** A run of requests, served one after the other. *)
Definition serve_all (rs : list Request) (db : DB) : DB :=
  foldl (λ db r, serve r db) db rs.

(** The error a handler's run ended with, if any. *)
Definition error_of {A} (run : result A * DB) : option Error :=
  match fst run with
  | Ok _ => None
  | Raise e => Some e
  end.

(** The error a request is answered with, if any. *)
Definition failure (r : Request) (db : DB) : option Error :=
  match r with
  | ReqRoot => error_of (root db)
  | ReqNew token => error_of (create_new_user token db)
  | ReqDemo token now => error_of (create_demo_user token now db)
  | ReqPage index_html secret => error_of (get_user_page index_html secret db)
  | ReqList secret => error_of (GET_entries secret db)
  | ReqCreate secret body => error_of (POST_entries secret body db)
  end.

(** What the validator and the demo table let into the entries table: a
    row has a description or an energy, and an energy lies within 1..10. *)
Definition entry_valid (e : Entry.t) : Prop :=
  (Entry.description e ≠ None ∨ Entry.energy e ≠ None)
  ∧ ∀ n, Entry.energy e = Some n → 1 ≤ n ≤ 10.

(** * Properties *)

(** ** The handler monad *)

Lemma bind_Ok {A B} (m : Handler A) (k : A → Handler B) db a db' :
  m db = (Ok a, db') → bind m k db = k a db'.
Proof. intros Hm. unfold bind. by rewrite Hm. Qed.

Lemma bind_Raise {A B} (m : Handler A) (k : A → Handler B) db e db' :
  m db = (Raise e, db') → bind m k db = (Raise e, db').
Proof. intros Hm. unfold bind. by rewrite Hm. Qed.

(** ** Generated keys *)

Lemma next_id_gt ids x : x ∈ ids → x < next_id ids.
Proof.
  unfold next_id. induction ids as [|y ids IH]; intros Hx.
  - by apply elem_of_nil in Hx.
  - apply elem_of_cons in Hx as [->|Hx]; simpl; [lia|].
    specialize (IH Hx). lia.
Qed.

Lemma next_id_fresh ids : next_id ids ∉ ids.
Proof. intros Hin. apply next_id_gt in Hin. lia. Qed.

Lemma foldr_max_init ids a :
  0 ≤ a → foldr Z.max a ids = Z.max a (foldr Z.max 0 ids).
Proof. intros Ha. induction ids as [|x ids IH]; simpl; lia. Qed.

Lemma next_id_snoc ids : next_id (ids ++ [next_id ids]) = next_id ids + 1.
Proof.
  unfold next_id. rewrite foldr_app. simpl.
  assert (0 ≤ foldr Z.max 0 ids) as Hpos
    by (induction ids as [|x ids IH]; simpl; lia).
  rewrite foldr_max_init by lia. lia.
Qed.

Lemma next_id_pos ids : 0 < next_id ids.
Proof.
  unfold next_id. induction ids as [|y ids IH]; simpl; lia.
Qed.

(** ** Looking a user up by secret key *)

Lemma query_user_first_db secret db :
  snd (query_user_first secret db) = db.
Proof. done. Qed.

Lemma query_user_first_unknown secret db :
  secret ∉ map User.secret_key (users db) →
  query_user_first secret db = (Ok None, db).
Proof.
  intros Hnot. unfold query_user_first. do 2 f_equal.
  destruct (filter _ (users db)) as [|u l] eqn:Hf; [done|].
  assert (u ∈ filter (λ u, User.secret_key u = secret) (users db)) as Hu
    by (rewrite Hf; left).
  apply list_elem_of_filter in Hu as [Hk Hu].
  destruct Hnot. rewrite <- Hk. apply list_elem_of_fmap. eauto.
Qed.

Lemma query_user_first_known secret db :
  secret ∈ map User.secret_key (users db) →
  ∃ user, query_user_first secret db = (Ok (Some user), db).
Proof.
  intros Hin. apply list_elem_of_fmap in Hin as (u & -> & Hu).
  unfold query_user_first.
  destruct (filter _ (users db)) as [|u' l] eqn:Hf; [|by eauto].
  assert (u ∈ filter (λ v, User.secret_key v = User.secret_key u) (users db))
    as Hu' by (by apply list_elem_of_filter).
  rewrite Hf in Hu'. by apply elem_of_nil in Hu'.
Qed.

Lemma query_user_first_Some secret db user :
  query_user_first secret db = (Ok (Some user), db) →
  user ∈ users db ∧ User.secret_key user = secret.
Proof.
  unfold query_user_first. intros [= Hq].
  destruct (filter _ (users db)) as [|u l] eqn:Hf; simplify_eq/=.
  assert (user ∈ filter (λ u, User.secret_key u = secret) (users db)) as Hu
    by (rewrite Hf; left).
  by apply list_elem_of_filter in Hu as [? ?].
Qed.

(** ** Validation of the request body *)

Lemma check_at_least_one_Ok_inv body entry :
  check_at_least_one body = Ok entry → entry = body.
Proof.
  unfold check_at_least_one. intros H.
  repeat case_match; by simplify_eq.
Qed.

Lemma check_at_least_one_Raise_inv body e :
  check_at_least_one body = Raise e → ∃ msg, e = ValueError msg.
Proof.
  unfold check_at_least_one. intros H.
  repeat case_match; simplify_eq; eauto.
Qed.

Lemma POST_entries_invalid secret body db e :
  check_at_least_one body = Raise e →
  POST_entries secret body db = (Raise e, db).
Proof. intros H. unfold POST_entries. by rewrite H. Qed.

Lemma POST_entries_valid secret body db :
  check_at_least_one body = Ok body →
  POST_entries secret body db =
    bind (create_entry secret body)
         (λ db_entry, ret (EntryResponse.from_attributes db_entry)) db.
Proof. intros H. unfold POST_entries. by rewrite H. Qed.

(** C2. A body in which both [description] and [energy] are null is
    rejected by the validator, the request is answered with status 422
    whatever the secret and the store, and the store is left as it was, so
    no row is inserted.  A body in which one of the two is present, with
    [energy] within 1..10 when it is present, passes the validator. *)
Theorem check_at_least_one_null_rule (body : EntryCreate.t) :
  (EntryCreate.description body = None →
   EntryCreate.energy body = None →
   ∃ e, check_at_least_one body = Raise e ∧ status_code e = 422 ∧
        ∀ secret db, POST_entries secret body db = (Raise e, db))
  ∧
  (EntryCreate.description body ≠ None ∨ EntryCreate.energy body ≠ None →
   (∀ e, EntryCreate.energy body = Some e → 1 ≤ e ≤ 10) →
   check_at_least_one body = Ok body).
Proof.
  split.
  - intros Hd He.
    exists (ValueError "At least one of description or energy must be provided").
    assert (check_at_least_one body =
            Raise (ValueError "At least one of description or energy must be provided"))
      as Hc by (unfold check_at_least_one; by rewrite Hd, He).
    split_and!; [done..|]. intros secret db. by apply POST_entries_invalid.
  - intros Hsome Hrange. unfold check_at_least_one.
    destruct (EntryCreate.description body) as [d|] eqn:Hd,
             (EntryCreate.energy body) as [e|] eqn:He; simpl.
    + specialize (Hrange e eq_refl).
      destruct (Z.ltb_spec e 1), (Z.gtb_spec e 10); simpl; by try lia.
    + done.
    + specialize (Hrange e eq_refl).
      destruct (Z.ltb_spec e 1), (Z.gtb_spec e 10); simpl; by try lia.
    + by destruct Hsome.
Qed.

Lemma check_at_least_one_null_rule_witness :
  (∃ e, check_at_least_one (EntryCreate.mk 1700000000000000 None None) = Raise e
        ∧ status_code e = 422
        ∧ ∀ secret db,
            POST_entries secret (EntryCreate.mk 1700000000000000 None None) db
            = (Raise e, db))
  ∧ check_at_least_one (EntryCreate.mk 1700000000000000 (Some "tired") None)
    = Ok (EntryCreate.mk 1700000000000000 (Some "tired") None)
  ∧ check_at_least_one (EntryCreate.mk 1700000000000000 None (Some 7))
    = Ok (EntryCreate.mk 1700000000000000 None (Some 7)).
Proof.
  split_and!.
  - apply (proj1 (check_at_least_one_null_rule
                    (EntryCreate.mk 1700000000000000 None None)));
      reflexivity.
  - apply (proj2 (check_at_least_one_null_rule
                    (EntryCreate.mk 1700000000000000 (Some "tired") None))).
    + left. simpl. discriminate.
    + simpl. intros e He. discriminate He.
  - apply (proj2 (check_at_least_one_null_rule
                    (EntryCreate.mk 1700000000000000 None (Some 7)))).
    + right. simpl. discriminate.
    + simpl. intros e [= <-]. lia.
Defined.

(** C3. When [energy] is present, the validator rejects the body exactly
    when the value is below 1 or above 10, and the request is then answered
    with status 422 and nothing stored; 0 and 11 are rejected, 1 and 10 are
    accepted. *)
Theorem check_at_least_one_energy_range (body : EntryCreate.t) (e : Z) :
  EntryCreate.energy body = Some e →
  ((∃ err, check_at_least_one body = Raise err ∧ status_code err = 422 ∧
           ∀ secret db, POST_entries secret body db = (Raise err, db))
   ↔ (e < 1 ∨ e > 10))
  ∧ (check_at_least_one body = Ok body ↔ ¬ (e < 1 ∨ e > 10))
  ∧ (∀ t d,
       check_at_least_one (EntryCreate.mk t d (Some 0))
         = Raise (ValueError "Energy must be between 1 and 10")
       ∧ check_at_least_one (EntryCreate.mk t d (Some 11))
         = Raise (ValueError "Energy must be between 1 and 10")
       ∧ check_at_least_one (EntryCreate.mk t d (Some 1))
         = Ok (EntryCreate.mk t d (Some 1))
       ∧ check_at_least_one (EntryCreate.mk t d (Some 10))
         = Ok (EntryCreate.mk t d (Some 10))).
Proof.
  intros He.
  assert (check_at_least_one body =
          if (e <? 1) || (e >? 10)
          then Raise (ValueError "Energy must be between 1 and 10")
          else Ok body) as Hc.
  { unfold check_at_least_one. rewrite He.
    by rewrite (bool_decide_eq_false_2 (Some e = None)), andb_false_r. }
  split_and!.
  - split.
    + intros (err & Herr & _). rewrite Hc in Herr.
      destruct (Z.ltb_spec e 1), (Z.gtb_spec e 10); simpl in Herr;
        try discriminate; lia.
    + intros Hout. exists (ValueError "Energy must be between 1 and 10").
      assert (check_at_least_one body =
              Raise (ValueError "Energy must be between 1 and 10")) as Hr.
      { rewrite Hc.
        destruct (Z.ltb_spec e 1), (Z.gtb_spec e 10); simpl; by try lia. }
      split_and!; [done..|]. intros secret db. by apply POST_entries_invalid.
  - rewrite Hc.
    destruct (Z.ltb_spec e 1), (Z.gtb_spec e 10); simpl;
      split; intros; try done; try lia.
  - intros t d. unfold check_at_least_one. simpl.
    by rewrite !andb_false_r.
Qed.

Lemma check_at_least_one_energy_range_witness :
  check_at_least_one (EntryCreate.mk 0 (Some "nap") (Some 5))
    = Ok (EntryCreate.mk 0 (Some "nap") (Some 5))
  ↔ ¬ (5 < 1 ∨ 5 > 10).
Proof.
  apply (check_at_least_one_energy_range
           (EntryCreate.mk 0 (Some "nap") (Some 5)) 5).
  reflexivity.
Defined.

(** ** Unknown secrets *)

Lemma get_user_page_unknown index_html secret db :
  secret ∉ map User.secret_key (users db) →
  get_user_page index_html secret db
  = (Raise (HTTPException 404 "User not found"), db).
Proof.
  intros Hnot. unfold get_user_page.
  by rewrite (bind_Ok _ _ _ _ _ (query_user_first_unknown _ _ Hnot)).
Qed.

Lemma get_entries_unknown secret db :
  secret ∉ map User.secret_key (users db) →
  get_entries secret db = (Raise (HTTPException 404 "User not found"), db).
Proof.
  intros Hnot. unfold get_entries.
  by rewrite (bind_Ok _ _ _ _ _ (query_user_first_unknown _ _ Hnot)).
Qed.

Lemma create_entry_unknown secret entry db :
  secret ∉ map User.secret_key (users db) →
  create_entry secret entry db
  = (Raise (HTTPException 404 "User not found"), db).
Proof.
  intros Hnot. unfold create_entry.
  by rewrite (bind_Ok _ _ _ _ _ (query_user_first_unknown _ _ Hnot)).
Qed.

(** C4, as stated, does not hold for the creation route: with an unknown
    secret and a body in which both optional fields are null, the validator
    of the body raises before the handler looks the secret up, and the
    answer is 422 instead of 404. *)
Lemma unknown_secret_not_always_404 :
  ¬ (∀ secret body db,
       secret ∉ map User.secret_key (users db) →
       ∃ e, POST_entries secret body db = (Raise e, db)
            ∧ status_code e = 404).
Proof.
  intros H.
  destruct (H "no-such-key" (EntryCreate.mk 1700000000000000 None None)
              empty_db) as (e & He & Hs).
  - simpl. apply not_elem_of_nil.
  - vm_compute in He. injection He as <-. vm_compute in Hs. discriminate Hs.
Qed.

(** C4, amended.  For a secret that matches no user, [get_user_page],
    [get_entries] and the handler [create_entry] raise the 404 "User not
    found"; the creation route answers 404 when its body passes the
    validator and 422 when it does not; and in every case the store is left
    as it was, so no row is inserted. *)
Theorem unknown_secret_not_found (secret : string) (db : DB) :
  secret ∉ map User.secret_key (users db) →
  (∀ index_html,
     get_user_page index_html secret db
     = (Raise (HTTPException 404 "User not found"), db))
  ∧ get_entries secret db = (Raise (HTTPException 404 "User not found"), db)
  ∧ GET_entries secret db = (Raise (HTTPException 404 "User not found"), db)
  ∧ (∀ entry,
       create_entry secret entry db
       = (Raise (HTTPException 404 "User not found"), db))
  ∧ (∀ body,
       check_at_least_one body = Ok body →
       POST_entries secret body db
       = (Raise (HTTPException 404 "User not found"), db))
  ∧ (∀ body e,
       check_at_least_one body = Raise e →
       POST_entries secret body db = (Raise e, db) ∧ status_code e = 422).
Proof.
  intros Hnot. split_and!.
  - intros index_html. by apply get_user_page_unknown.
  - by apply get_entries_unknown.
  - unfold GET_entries.
    by rewrite (bind_Raise _ _ _ _ _ (get_entries_unknown _ _ Hnot)).
  - intros entry. by apply create_entry_unknown.
  - intros body Hok. rewrite POST_entries_valid by done.
    by rewrite (bind_Raise _ _ _ _ _ (create_entry_unknown _ _ _ Hnot)).
  - intros body e Hc. split; [by apply POST_entries_invalid|].
    by apply check_at_least_one_Raise_inv in Hc as [msg ->].
Qed.

Lemma unknown_secret_not_found_witness :
  get_entries "no-such-key"
    {| users := [User.mk 1 "k1"]; entries := [Entry.mk 1 1 5 None (Some 3)] |}
  = (Raise (HTTPException 404 "User not found"),
     {| users := [User.mk 1 "k1"]; entries := [Entry.mk 1 1 5 None (Some 3)] |}).
Proof.
  apply (unknown_secret_not_found "no-such-key"
    {| users := [User.mk 1 "k1"]; entries := [Entry.mk 1 1 5 None (Some 3)] |}).
  simpl. intros Hin. apply list_elem_of_singleton in Hin. discriminate Hin.
Defined.

(** ** Creating an entry *)

Lemma create_entry_known secret entry db user :
  query_user_first secret db = (Ok (Some user), db) →
  create_entry secret entry db
  = add_entry (User.id user) (EntryCreate.timestamp entry)
      (EntryCreate.description entry) (EntryCreate.energy entry) db.
Proof. intros Hq. unfold create_entry. by rewrite (bind_Ok _ _ _ _ _ Hq). Qed.

Lemma POST_entries_known secret body db user :
  query_user_first secret db = (Ok (Some user), db) →
  check_at_least_one body = Ok body →
  POST_entries secret body db
  = (Ok (EntryResponse.from_attributes (inserted_row (User.id user) body db)),
     {| users := users db;
        entries := entries db ++ [inserted_row (User.id user) body db] |}).
Proof.
  intros Hq Hok. rewrite POST_entries_valid by done. unfold bind.
  by rewrite (create_entry_known _ _ _ _ Hq).
Qed.

(** C6. With a secret that resolves to [user] and a body that passes the
    validator, exactly one row is appended to the entries table; it belongs
    to [user], carries the body's timestamp, description and energy under a
    key not yet in the table, and the route returns its id, timestamp,
    description and energy. *)
Theorem create_entry_inserts_one
    (secret : string) (body : EntryCreate.t) (db : DB) (user : User.t) :
  query_user_first secret db = (Ok (Some user), db) →
  check_at_least_one body = Ok body →
  ∃ db_entry,
    create_entry secret body db
    = (Ok db_entry,
       {| users := users db; entries := entries db ++ [db_entry] |})
    ∧ POST_entries secret body db
      = (Ok {| EntryResponse.id := Entry.id db_entry;
               EntryResponse.timestamp := EntryCreate.timestamp body;
               EntryResponse.description := EntryCreate.description body;
               EntryResponse.energy := EntryCreate.energy body |},
         {| users := users db; entries := entries db ++ [db_entry] |})
    ∧ Entry.user_id db_entry = User.id user
    ∧ Entry.timestamp db_entry = EntryCreate.timestamp body
    ∧ Entry.description db_entry = EntryCreate.description body
    ∧ Entry.energy db_entry = EntryCreate.energy body
    ∧ (Entry.id db_entry ∉ map Entry.id (entries db)).
Proof.
  intros Hq Hok. eexists. split_and!.
  - rewrite (create_entry_known _ _ _ _ Hq). unfold add_entry. reflexivity.
  - rewrite POST_entries_valid by done. unfold bind.
    rewrite (create_entry_known _ _ _ _ Hq). reflexivity.
  - done.
  - done.
  - done.
  - done.
  - simpl. apply next_id_fresh.
Qed.

Lemma create_entry_inserts_one_witness :
  ∃ db_entry,
    create_entry "k1" (EntryCreate.mk 90 (Some "walk") (Some 8))
      {| users := [User.mk 1 "k0"; User.mk 2 "k1"];
         entries := [Entry.mk 1 1 5 None (Some 3)] |}
    = (Ok db_entry,
       {| users := [User.mk 1 "k0"; User.mk 2 "k1"];
          entries := [Entry.mk 1 1 5 None (Some 3); db_entry] |})
    ∧ db_entry = Entry.mk 2 2 90 (Some "walk") (Some 8).
Proof.
  destruct (create_entry_inserts_one "k1"
              (EntryCreate.mk 90 (Some "walk") (Some 8))
              {| users := [User.mk 1 "k0"; User.mk 2 "k1"];
                 entries := [Entry.mk 1 1 5 None (Some 3)] |}
              (User.mk 2 "k1") eq_refl eq_refl)
    as (db_entry & Hc & _).
  exists db_entry. split; [exact Hc|].
  vm_compute in Hc. by injection Hc as <-.
Defined.

(** C9. A body whose description is the empty string and whose energy is
    null passes the validator, and with a secret that resolves to a user it
    is stored, and returned, with the empty string as its description. *)
Theorem empty_description_accepted
    (secret : string) (t : datetime) (db : DB) (user : User.t) :
  query_user_first secret db = (Ok (Some user), db) →
  check_at_least_one (EntryCreate.mk t (Some "") None)
  = Ok (EntryCreate.mk t (Some "") None)
  ∧ ∃ db_entry,
      POST_entries secret (EntryCreate.mk t (Some "") None) db
      = (Ok (EntryResponse.from_attributes db_entry),
         {| users := users db; entries := entries db ++ [db_entry] |})
      ∧ Entry.description db_entry = Some ""
      ∧ Entry.energy db_entry = None
      ∧ Entry.user_id db_entry = User.id user.
Proof.
  intros Hq. split; [done|].
  exists (inserted_row (User.id user) (EntryCreate.mk t (Some "") None) db).
  split_and!; [|done..].
  by apply POST_entries_known.
Qed.

Lemma empty_description_accepted_witness :
  ∃ db_entry,
    POST_entries "k1" (EntryCreate.mk 77 (Some "") None)
      {| users := [User.mk 1 "k1"]; entries := [] |}
    = (Ok (EntryResponse.from_attributes db_entry),
       {| users := [User.mk 1 "k1"]; entries := [db_entry] |})
    ∧ Entry.description db_entry = Some "".
Proof.
  destruct (proj2 (empty_description_accepted "k1" 77
              {| users := [User.mk 1 "k1"]; entries := [] |}
              (User.mk 1 "k1") eq_refl))
    as (db_entry & Hp & Hd & _).
  exists db_entry. split; [exact Hp | exact Hd].
Defined.

(** C10. A successful creation changes nothing but the new row: the users
    table is the same, the entries table is the old one followed by the new
    row, so that every earlier row is still there, unchanged and in place,
    and the entries of every other user are the same as before. *)
Theorem create_entry_frame
    (secret : string) (body : EntryCreate.t) (db : DB) (user : User.t) :
  query_user_first secret db = (Ok (Some user), db) →
  check_at_least_one body = Ok body →
  ∃ db_entry db',
    POST_entries secret body db
    = (Ok (EntryResponse.from_attributes db_entry), db')
    ∧ users db' = users db
    ∧ entries db' = entries db ++ [db_entry]
    ∧ (∀ (i : nat) (e : Entry.t),
         entries db !! i = Some e → entries db' !! i = Some e)
    ∧ (∀ uid, uid ≠ User.id user →
         filter (λ e, Entry.user_id e = uid) (entries db')
         = filter (λ e, Entry.user_id e = uid) (entries db)).
Proof.
  intros Hq Hok.
  exists (inserted_row (User.id user) body db),
    {| users := users db;
       entries := entries db ++ [inserted_row (User.id user) body db] |}.
  split_and!.
  - by apply POST_entries_known.
  - done.
  - done.
  - intros i e Hi. simpl. by apply lookup_app_l_Some.
  - intros uid Hne. simpl.
    rewrite list.filter_app, filter_cons_False, filter_nil.
    + by rewrite app_nil_r.
    + simpl. congruence.
Qed.

Lemma create_entry_frame_witness :
  ∃ db_entry db',
    POST_entries "k1" (EntryCreate.mk 90 None (Some 8))
      {| users := [User.mk 1 "k0"; User.mk 2 "k1"];
         entries := [Entry.mk 1 1 5 None (Some 3)] |}
    = (Ok (EntryResponse.from_attributes db_entry), db')
    ∧ users db' = [User.mk 1 "k0"; User.mk 2 "k1"]
    ∧ entries db' = [Entry.mk 1 1 5 None (Some 3); db_entry].
Proof.
  destruct (create_entry_frame "k1" (EntryCreate.mk 90 None (Some 8))
              {| users := [User.mk 1 "k0"; User.mk 2 "k1"];
                 entries := [Entry.mk 1 1 5 None (Some 3)] |}
              (User.mk 2 "k1") eq_refl eq_refl)
    as (db_entry & db' & Hp & Hu & He & _).
  exists db_entry, db'. split_and!; [exact Hp | exact Hu | exact He].
Defined.

(** ** Listing *)

#[global] Instance timestamp_desc_total : Total timestamp_desc.
Proof. intros a b. unfold timestamp_desc. lia. Qed.

#[global] Instance timestamp_desc_trans : Transitive timestamp_desc.
Proof. intros a b c. unfold timestamp_desc. lia. Qed.

Lemma get_entries_known secret db user :
  query_user_first secret db = (Ok (Some user), db) →
  get_entries secret db
  = (Ok (merge_sort timestamp_desc
           (filter (λ e, Entry.user_id e = User.id user) (entries db))), db).
Proof. intros Hq. unfold get_entries. by rewrite (bind_Ok _ _ _ _ _ Hq). Qed.

Lemma query_user_first_same_users secret db db' r :
  users db' = users db →
  query_user_first secret db = (Ok r, db) →
  query_user_first secret db' = (Ok r, db').
Proof.
  unfold query_user_first. intros -> [= <-]. done.
Qed.

Lemma filter_user_id_none uid (l : list Entry.t) :
  Forall (λ e, Entry.user_id e ≠ uid) l →
  filter (λ e, Entry.user_id e = uid) l = [].
Proof.
  induction 1 as [|e l He _ IH]; [done|]. by rewrite filter_cons_False.
Qed.

Lemma filter_user_id_all uid (l : list Entry.t) :
  Forall (λ e, Entry.user_id e = uid) l →
  filter (λ e, Entry.user_id e = uid) l = l.
Proof.
  induction 1 as [|e l He _ IH]; [done|].
  rewrite filter_cons_True by done. by f_equal.
Qed.

(** C1. When the secret resolves to [user], the listing succeeds, leaves
    the store as it was, and returns exactly the rows of the entries table
    whose [user_id] is that user's id, each as often as it occurs, in
    descending order of timestamp; when the user owns no row the result is
    the empty list. *)
Theorem get_entries_newest_first
    (secret : string) (db : DB) (user : User.t) :
  query_user_first secret db = (Ok (Some user), db) →
  ∃ l,
    get_entries secret db = (Ok l, db)
    ∧ GET_entries secret db = (Ok (map EntryResponse.from_attributes l), db)
    ∧ l ≡ₚ filter (λ e, Entry.user_id e = User.id user) (entries db)
    ∧ StronglySorted timestamp_desc l
    ∧ (Forall (λ e, Entry.user_id e ≠ User.id user) (entries db) → l = []).
Proof.
  intros Hq. pose proof (get_entries_known _ _ _ Hq) as Hg.
  eexists. split_and!.
  - exact Hg.
  - unfold GET_entries. by rewrite (bind_Ok _ _ _ _ _ Hg).
  - apply merge_sort_Permutation.
  - apply StronglySorted_merge_sort; apply _.
  - intros Hnone.
    assert (filter (λ e, Entry.user_id e = User.id user) (entries db) = [])
      as ->; [|done].
    by apply filter_user_id_none.
Qed.

Lemma get_entries_newest_first_witness :
  ∃ l,
    get_entries "k1"
      {| users := [User.mk 1 "k0"; User.mk 2 "k1"];
         entries := [Entry.mk 1 2 50 None (Some 3);
                     Entry.mk 2 1 60 (Some "tea") None;
                     Entry.mk 3 2 70 (Some "run") (Some 9)] |}
    = (Ok l,
       {| users := [User.mk 1 "k0"; User.mk 2 "k1"];
          entries := [Entry.mk 1 2 50 None (Some 3);
                      Entry.mk 2 1 60 (Some "tea") None;
                      Entry.mk 3 2 70 (Some "run") (Some 9)] |})
    ∧ StronglySorted timestamp_desc l.
Proof.
  destruct (get_entries_newest_first "k1"
              {| users := [User.mk 1 "k0"; User.mk 2 "k1"];
                 entries := [Entry.mk 1 2 50 None (Some 3);
                             Entry.mk 2 1 60 (Some "tea") None;
                             Entry.mk 3 2 70 (Some "run") (Some 9)] |}
              (User.mk 2 "k1") eq_refl)
    as (l & Hg & _ & _ & Hs & _).
  exists l. split; [exact Hg | exact Hs].
Defined.

Example get_entries_example :
  fst (get_entries "k1"
         {| users := [User.mk 1 "k0"; User.mk 2 "k1"];
            entries := [Entry.mk 1 2 50 None (Some 3);
                        Entry.mk 2 1 60 (Some "tea") None;
                        Entry.mk 3 2 70 (Some "run") (Some 9)] |})
  = Ok [Entry.mk 3 2 70 (Some "run") (Some 9); Entry.mk 1 2 50 None (Some 3)].
Proof. reflexivity. Qed.

(** C8. Two creations in a row for the same user succeed with two
    different ids, the second greater than the first, and the listing that
    follows contains both created entries. *)
Theorem sequential_creations
    (secret : string) (body1 body2 : EntryCreate.t) (db : DB)
    (user : User.t) :
  query_user_first secret db = (Ok (Some user), db) →
  check_at_least_one body1 = Ok body1 →
  check_at_least_one body2 = Ok body2 →
  ∃ r1 r2 db1 db2 l,
    POST_entries secret body1 db = (Ok r1, db1)
    ∧ POST_entries secret body2 db1 = (Ok r2, db2)
    ∧ EntryResponse.id r1 ≠ EntryResponse.id r2
    ∧ EntryResponse.id r1 < EntryResponse.id r2
    ∧ GET_entries secret db2 = (Ok l, db2)
    ∧ r1 ∈ l
    ∧ r2 ∈ l.
Proof.
  intros Hq Hok1 Hok2.
  set (e1 := inserted_row (User.id user) body1 db).
  set (db1 := {| users := users db; entries := entries db ++ [e1] |}).
  assert (query_user_first secret db1 = (Ok (Some user), db1)) as Hq1
    by (by apply (query_user_first_same_users secret db db1)).
  set (e2 := inserted_row (User.id user) body2 db1).
  set (db2 := {| users := users db1; entries := entries db1 ++ [e2] |}).
  assert (query_user_first secret db2 = (Ok (Some user), db2)) as Hq2
    by (by apply (query_user_first_same_users secret db1 db2)).
  assert (Entry.id e1 < Entry.id e2) as Hlt.
  { apply next_id_gt. simpl. rewrite map_app. apply elem_of_app.
    right. left. }
  assert (e1 ∈ entries db2) as Hin1.
  { simpl. apply elem_of_app. left. apply elem_of_app. right. left. }
  assert (e2 ∈ entries db2) as Hin2.
  { simpl. apply elem_of_app. right. left. }
  assert (GET_entries secret db2
          = (Ok (map EntryResponse.from_attributes
                   (merge_sort timestamp_desc
                      (filter (λ e, Entry.user_id e = User.id user)
                         (entries db2)))), db2)) as Hg.
  { unfold GET_entries.
    by rewrite (bind_Ok _ _ _ _ _ (get_entries_known _ _ _ Hq2)). }
  exists (EntryResponse.from_attributes e1), (EntryResponse.from_attributes e2),
    db1, db2.
  eexists. split_and!.
  - by apply POST_entries_known.
  - by apply POST_entries_known.
  - change (Entry.id e1 ≠ Entry.id e2). intros Heq. rewrite Heq in Hlt. lia.
  - exact Hlt.
  - exact Hg.
  - apply list_elem_of_fmap_2. rewrite merge_sort_Permutation.
    by apply list_elem_of_filter.
  - apply list_elem_of_fmap_2. rewrite merge_sort_Permutation.
    by apply list_elem_of_filter.
Qed.

Lemma sequential_creations_witness :
  ∃ r1 r2 db1 db2 l,
    POST_entries "k1" (EntryCreate.mk 90 (Some "walk") None)
      {| users := [User.mk 1 "k1"]; entries := [Entry.mk 4 1 5 None (Some 3)] |}
    = (Ok r1, db1)
    ∧ POST_entries "k1" (EntryCreate.mk 80 None (Some 2)) db1 = (Ok r2, db2)
    ∧ EntryResponse.id r1 ≠ EntryResponse.id r2
    ∧ EntryResponse.id r1 < EntryResponse.id r2
    ∧ GET_entries "k1" db2 = (Ok l, db2)
    ∧ r1 ∈ l
    ∧ r2 ∈ l.
Proof.
  apply (sequential_creations "k1"
           (EntryCreate.mk 90 (Some "walk") None)
           (EntryCreate.mk 80 None (Some 2))
           {| users := [User.mk 1 "k1"];
              entries := [Entry.mk 4 1 5 None (Some 3)] |}
           (User.mk 1 "k1")); reflexivity.
Defined.

Example sequential_creations_example :
  fst (bind (POST_entries "k1" (EntryCreate.mk 90 (Some "walk") None))
         (λ r1, bind (POST_entries "k1" (EntryCreate.mk 80 None (Some 2)))
         (λ r2, bind (GET_entries "k1") (λ l, ret (r1, r2, l))))
         {| users := [User.mk 1 "k1"];
            entries := [Entry.mk 4 1 5 None (Some 3)] |})
  = Ok (EntryResponse.mk 5 90 (Some "walk") None,
        EntryResponse.mk 6 80 None (Some 2),
        [EntryResponse.mk 5 90 (Some "walk") None;
         EntryResponse.mk 6 80 None (Some 2);
         EntryResponse.mk 4 5 None (Some 3)]).
Proof. reflexivity. Qed.

(** ** Seeding the demo user *)

Lemma add_user_fresh token db :
  token ∉ map User.secret_key (users db) →
  add_user token db
  = (Ok {| User.id := next_id (map User.id (users db));
           User.secret_key := token |},
     {| users := users db
                 ++ [{| User.id := next_id (map User.id (users db));
                        User.secret_key := token |}];
        entries := entries db |}).
Proof. intros Hnot. unfold add_user. by rewrite bool_decide_eq_false_2. Qed.

Lemma add_user_taken token db :
  token ∈ map User.secret_key (users db) →
  add_user token db = (Raise IntegrityError, db).
Proof. intros Hin. unfold add_user. by rewrite bool_decide_eq_true_2. Qed.

Lemma for_each_seeded uid now rows db :
  for_each rows (λ entry_data,
    add_entry uid (now - timedelta (minutes_ago entry_data))
      (Some (demo_description entry_data)) (demo_energy entry_data) ;;;
    ret tt) db
  = (Ok tt,
     {| users := users db;
        entries := entries db
                   ++ seeded uid now (next_id (map Entry.id (entries db))) rows |}).
Proof.
  revert db. induction rows as [|d rows IH]; intros db.
  - simpl. rewrite app_nil_r. by destruct db.
  - simpl. unfold bind at 1. unfold bind at 1. unfold add_entry at 1.
    unfold ret at 1. rewrite IH. simpl.
    by rewrite map_app, next_id_snoc, <- app_assoc.
Qed.

Lemma create_demo_user_fresh token now db :
  token ∉ map User.secret_key (users db) →
  create_demo_user token now db
  = (Ok (RedirectResponse ("/u/" +:+ token)),
     {| users := users db
                 ++ [{| User.id := next_id (map User.id (users db));
                        User.secret_key := token |}];
        entries := entries db
                   ++ seeded (next_id (map User.id (users db))) now
                        (next_id (map Entry.id (entries db))) demo_entries |}).
Proof.
  intros Hnot. unfold create_demo_user.
  rewrite (bind_Ok _ _ _ _ _ (add_user_fresh _ _ Hnot)).
  unfold bind at 1. rewrite for_each_seeded. reflexivity.
Qed.

Lemma seeded_Forall2 uid now key rows :
  Forall2 (seeded_from uid now) rows (seeded uid now key rows).
Proof.
  revert key. induction rows as [|d rows IH]; intros key; simpl.
  - constructor.
  - constructor; [done|]. apply IH.
Qed.

Lemma seeded_length uid now key rows :
  length (seeded uid now key rows) = length rows.
Proof.
  revert key. induction rows as [|d rows IH]; intros key; simpl; [done|].
  by rewrite IH.
Qed.

Lemma seeded_owner uid now key rows :
  Forall (λ e, Entry.user_id e = uid) (seeded uid now key rows).
Proof.
  revert key. induction rows as [|d rows IH]; intros key; simpl.
  - constructor.
  - constructor; [done|]. apply IH.
Qed.

(** C5, as stated, does not hold: the table of [create_demo_user] has 38
    dictionaries, and a call stores 38 rows, not 37. *)
Lemma create_demo_user_not_37 :
  ¬ (∀ token now db,
       token ∉ map User.secret_key (users db) →
       length (entries (snd (create_demo_user token now db)))
       = (length (entries db) + 37)%nat).
Proof.
  intros H. specialize (H "demo-key" 1700000000000000 empty_db).
  assert ("demo-key" ∉ map User.secret_key (users empty_db)) as Hnot
    by apply not_elem_of_nil.
  specialize (H Hnot). vm_compute in H. discriminate H.
Qed.

(** C5, amended.  A call of [create_demo_user] whose generated secret key
    is not taken creates one user, under a key new to the users table, and
    appends exactly 38 rows to the entries table, one for each dictionary of
    the table in the table's order: each belongs to the new user, has the
    timestamp [now] minus the dictionary's minutes, and carries its
    description and its optional energy.  Nothing else changes, and the
    answer is the redirect to the new user's page. *)
Theorem create_demo_user_seeds
    (token : string) (now : datetime) (db : DB) :
  token ∉ map User.secret_key (users db) →
  ∃ user new,
    create_demo_user token now db
    = (Ok (RedirectResponse ("/u/" +:+ token)),
       {| users := users db ++ [user]; entries := entries db ++ new |})
    ∧ User.secret_key user = token
    ∧ (User.id user ∉ map User.id (users db))
    ∧ length demo_entries = 38%nat
    ∧ length new = 38%nat
    ∧ Forall2 (seeded_from (User.id user) now) demo_entries new.
Proof.
  intros Hnot. eexists _, _. split_and!.
  - by apply create_demo_user_fresh.
  - done.
  - apply next_id_fresh.
  - done.
  - by rewrite seeded_length.
  - apply seeded_Forall2.
Qed.

Lemma create_demo_user_seeds_witness :
  ∃ user new,
    create_demo_user "demo-key" 1700000000000000
      {| users := [User.mk 1 "k1"]; entries := [Entry.mk 1 1 5 None (Some 3)] |}
    = (Ok (RedirectResponse "/u/demo-key"),
       {| users := [User.mk 1 "k1"; user];
          entries := Entry.mk 1 1 5 None (Some 3) :: new |})
    ∧ length new = 38%nat.
Proof.
  destruct (create_demo_user_seeds "demo-key" 1700000000000000
              {| users := [User.mk 1 "k1"];
                 entries := [Entry.mk 1 1 5 None (Some 3)] |})
    as (user & new & Hc & _ & _ & _ & Hlen & _).
  - simpl. intros Hin. apply list_elem_of_singleton in Hin. discriminate Hin.
  - exists user, new. split; [exact Hc | exact Hlen].
Defined.

(** ** The integrity constraints are kept *)

Lemma db_ok_empty : db_ok empty_db.
Proof. split; simpl; constructor. Qed.

Lemma add_user_ok token db :
  db_ok db → db_ok (snd (add_user token db)).
Proof.
  intros [Hfk Hkeys Huids Heids].
  destruct (decide (token ∈ map User.secret_key (users db))) as [Hin|Hnot].
  - rewrite add_user_taken by done. by split.
  - rewrite add_user_fresh by done. split; simpl.
    + revert Hfk. apply Forall_impl. intros e He.
      rewrite map_app. apply elem_of_app. by left.
    + rewrite map_app. apply list.NoDup_app. split_and!; [done| |].
      * intros k Hk Hk'. simpl in Hk'.
        apply list_elem_of_singleton in Hk' as ->. done.
      * simpl. apply NoDup_singleton.
    + rewrite map_app. apply list.NoDup_app. split_and!; [done| |].
      * intros i Hi Hi'. simpl in Hi'.
        apply list_elem_of_singleton in Hi' as ->.
        by apply next_id_fresh in Hi.
      * simpl. apply NoDup_singleton.
    + done.
Qed.

Lemma add_entry_ok uid t d en db :
  uid ∈ map User.id (users db) →
  db_ok db → db_ok (snd (add_entry uid t d en db)).
Proof.
  intros Huid [Hfk Hkeys Huids Heids]. unfold add_entry. split; simpl.
  - apply Forall_app. split; [done|]. by repeat constructor.
  - done.
  - done.
  - rewrite map_app. apply list.NoDup_app. split_and!; [done| |].
    + intros i Hi Hi'. simpl in Hi'.
      apply list_elem_of_singleton in Hi' as ->.
      by apply next_id_fresh in Hi.
    + simpl. apply NoDup_singleton.
Qed.

Lemma for_each_add_entry_ok uid now rows db :
  uid ∈ map User.id (users db) →
  db_ok db →
  db_ok (snd (for_each rows (λ entry_data,
    add_entry uid (now - timedelta (minutes_ago entry_data))
      (Some (demo_description entry_data)) (demo_energy entry_data) ;;;
    ret tt) db)).
Proof.
  revert db. induction rows as [|r rows IH]; intros db Huid Hok; [done|].
  simpl. unfold bind at 1. unfold bind at 1. unfold add_entry at 1.
  unfold ret at 1.
  apply IH; [done|].
  by apply (add_entry_ok uid (now - timedelta (minutes_ago r))
              (Some (demo_description r)) (demo_energy r) db).
Qed.

Lemma create_new_user_ok token db :
  db_ok db → db_ok (snd (create_new_user token db)).
Proof.
  intros Hok. pose proof (add_user_ok token db Hok) as Hok'.
  unfold create_new_user, bind.
  by destruct (add_user token db) as [[user|e] db'].
Qed.

Lemma create_demo_user_ok token now db :
  db_ok db → db_ok (snd (create_demo_user token now db)).
Proof.
  intros Hok.
  destruct (decide (token ∈ map User.secret_key (users db))) as [Hin|Hnot].
  - unfold create_demo_user.
    by rewrite (bind_Raise _ _ _ _ _ (add_user_taken _ _ Hin)).
  - pose proof (add_user_ok token db Hok) as Hok'.
    rewrite add_user_fresh in Hok' by done. simpl in Hok'.
    apply (for_each_add_entry_ok
             (next_id (map User.id (users db))) now demo_entries) in Hok'.
    2: { simpl. rewrite map_app. apply elem_of_app. right. left. }
    rewrite for_each_seeded in Hok'.
    by rewrite create_demo_user_fresh.
Qed.

Lemma POST_entries_ok secret body db :
  db_ok db → db_ok (snd (POST_entries secret body db)).
Proof.
  intros Hok. unfold POST_entries.
  destruct (check_at_least_one body) as [entry|e]; [|done].
  destruct (decide (secret ∈ map User.secret_key (users db))) as [Hin|Hnot].
  - destruct (query_user_first_known _ _ Hin) as [user Hq].
    unfold bind. rewrite (create_entry_known _ _ _ _ Hq).
    apply (add_entry_ok (User.id user) _ _ _ db); [|done].
    apply query_user_first_Some in Hq as [Hu _].
    apply list_elem_of_fmap. eauto.
  - by rewrite (bind_Raise _ _ _ _ _ (create_entry_unknown _ _ _ Hnot)).
Qed.

Lemma get_user_page_db index_html secret db :
  snd (get_user_page index_html secret db) = db.
Proof.
  unfold get_user_page, bind, query_user_first. by case_match.
Qed.

Lemma GET_entries_db secret db : snd (GET_entries secret db) = db.
Proof.
  destruct (decide (secret ∈ map User.secret_key (users db))) as [Hin|Hnot].
  - destruct (query_user_first_known _ _ Hin) as [user Hq].
    unfold GET_entries.
    by rewrite (bind_Ok _ _ _ _ _ (get_entries_known _ _ _ Hq)).
  - unfold GET_entries.
    by rewrite (bind_Raise _ _ _ _ _ (get_entries_unknown _ _ Hnot)).
Qed.

Lemma serve_ok r db : db_ok db → db_ok (serve r db).
Proof.
  intros Hok. destruct r; simpl.
  - done.
  - by apply create_new_user_ok.
  - by apply create_demo_user_ok.
  - by rewrite get_user_page_db.
  - by rewrite GET_entries_db.
  - by apply POST_entries_ok.
Qed.

Lemma reachable_ok db : reachable db → db_ok db.
Proof.
  induction 1 as [|db r _ IH]; [apply db_ok_empty | by apply serve_ok].
Qed.

(** ** Listing the demo user *)

Lemma demo_entries_increasing :
  StronglySorted (λ a b, minutes_ago a < minutes_ago b) demo_entries.
Proof.
  unfold demo_entries.
  repeat (constructor; [|by repeat constructor]). constructor.
Qed.

Lemma seeded_older uid now key rows m :
  Forall (λ d, m < minutes_ago d) rows →
  Forall (λ e, Entry.timestamp e < now - timedelta m)
    (seeded uid now key rows).
Proof.
  intros Hrows. revert key.
  induction Hrows as [|d rows Hd _ IH]; intros key; simpl.
  - constructor.
  - constructor; [|apply IH]. simpl. unfold timedelta. lia.
Qed.

Lemma seeded_strict uid now key rows :
  StronglySorted (λ a b, minutes_ago a < minutes_ago b) rows →
  StronglySorted timestamp_strict_desc (seeded uid now key rows).
Proof.
  intros Hrows. revert key.
  induction Hrows as [|d rows _ IH Hd]; intros key; simpl.
  - constructor.
  - constructor; [apply IH|].
    by apply seeded_older.
Qed.

Lemma strict_desc_inj l x y :
  StronglySorted timestamp_strict_desc l →
  x ∈ l → y ∈ l → Entry.timestamp x = Entry.timestamp y → x = y.
Proof.
  unfold timestamp_strict_desc.
  induction 1 as [|z l _ IH Hz]; intros Hx Hy Heq.
  - by apply elem_of_nil in Hx.
  - rewrite list.Forall_forall in Hz.
    apply elem_of_cons in Hx as [->|Hx], Hy as [->|Hy].
    + done.
    + apply Hz in Hy. lia.
    + apply Hz in Hx. lia.
    + by apply IH.
Qed.

Lemma strict_desc_desc l :
  StronglySorted timestamp_strict_desc l → StronglySorted timestamp_desc l.
Proof.
  induction 1 as [|z l _ IH Hz]; constructor; [done|].
  revert Hz. apply Forall_impl. unfold timestamp_strict_desc, timestamp_desc.
  intros e He. lia.
Qed.

Lemma merge_sort_strict_desc l :
  StronglySorted timestamp_strict_desc l →
  merge_sort timestamp_desc l = l.
Proof.
  intros Hl.
  apply (Sorted_unique_strong timestamp_desc).
  - intros x1 x2 Hx1 Hx2 H12 H21. rewrite merge_sort_Permutation in Hx1.
    apply (strict_desc_inj l); [done..|].
    unfold timestamp_desc in *. lia.
  - apply Sorted_merge_sort, _.
  - by apply StronglySorted_Sorted, strict_desc_desc.
  - apply merge_sort_Permutation.
Qed.

Lemma query_user_first_new token db user :
  token ∉ map User.secret_key (users db) →
  User.secret_key user = token →
  query_user_first token
    {| users := users db ++ [user]; entries := entries db |}
  = (Ok (Some user), {| users := users db ++ [user]; entries := entries db |}).
Proof.
  intros Hnot Hkey.
  pose proof (query_user_first_unknown _ _ Hnot) as Hq.
  unfold query_user_first in *. simpl. injection Hq as Hq.
  rewrite list.filter_app.
  destruct (filter _ (users db)) as [|u l]; [|done].
  by rewrite filter_cons_True.
Qed.

Lemma filter_foreign db uid :
  db_ok db → uid ∉ map User.id (users db) →
  filter (λ e, Entry.user_id e = uid) (entries db) = [].
Proof.
  intros [Hfk _ _ _] Hnot. apply filter_user_id_none.
  revert Hfk. apply Forall_impl. intros e He Heq. by rewrite Heq in He.
Qed.

Lemma get_entries_seeded token now db rows :
  db_ok db →
  token ∉ map User.secret_key (users db) →
  StronglySorted (λ a b, minutes_ago a < minutes_ago b) rows →
  get_entries token
    {| users := users db
                ++ [{| User.id := next_id (map User.id (users db));
                       User.secret_key := token |}];
       entries := entries db
                  ++ seeded (next_id (map User.id (users db))) now
                       (next_id (map Entry.id (entries db))) rows |}
  = (Ok (seeded (next_id (map User.id (users db))) now
           (next_id (map Entry.id (entries db))) rows),
     {| users := users db
                 ++ [{| User.id := next_id (map User.id (users db));
                        User.secret_key := token |}];
        entries := entries db
                   ++ seeded (next_id (map User.id (users db))) now
                        (next_id (map Entry.id (entries db))) rows |}).
Proof.
  intros Hok Hnot Hrows.
  set (user := {| User.id := next_id (map User.id (users db));
                  User.secret_key := token |}).
  set (new := seeded (next_id (map User.id (users db))) now
                (next_id (map Entry.id (entries db))) rows).
  set (db1 := {| users := users db ++ [user]; entries := entries db ++ new |}).
  assert (query_user_first token db1 = (Ok (Some user), db1)) as Hq.
  { apply (query_user_first_same_users token
             {| users := users db ++ [user]; entries := entries db |} db1);
      [done|].
    by apply query_user_first_new. }
  rewrite (get_entries_known _ _ _ Hq). do 2 f_equal.
  change (entries db1) with (entries db ++ new).
  rewrite list.filter_app.
  rewrite (filter_foreign db) by (done || apply next_id_fresh).
  rewrite (filter_user_id_all (User.id user)) by apply seeded_owner.
  apply merge_sort_strict_desc. by apply seeded_strict.
Qed.

Lemma seeded_demo_entries_head uid now key :
  ∃ first rest,
    seeded uid now key demo_entries = first :: rest
    ∧ Entry.description first = Some "Just had coffee"
    ∧ Entry.energy first = Some 6
    ∧ Entry.timestamp first = now - timedelta 5.
Proof.
  eexists _, _. split; [reflexivity|]. split_and!; reflexivity.
Qed.

(** C7. On a store that satisfies its integrity constraints, and with a
    generated secret key that is not taken, listing the entries of the
    user that [create_demo_user] has just created returns the seeded rows,
    one for each dictionary of the table and in the table's order; each row
    is strictly newer than all the rows after it, and the first one, the
    most recent, is the row made from the offset 5: description "Just had
    coffee", energy 6. *)
Theorem demo_listing_newest_first
    (token : string) (now : datetime) (db : DB) :
  db_ok db →
  token ∉ map User.secret_key (users db) →
  ∃ response db1 first rest,
    create_demo_user token now db = (Ok response, db1)
    ∧ get_entries token db1 = (Ok (first :: rest), db1)
    ∧ StronglySorted timestamp_desc (first :: rest)
    ∧ StronglySorted timestamp_strict_desc (first :: rest)
    ∧ (∃ user, user ∈ users db1 ∧ User.secret_key user = token ∧
               Forall2 (seeded_from (User.id user) now) demo_entries
                 (first :: rest))
    ∧ Entry.description first = Some "Just had coffee"
    ∧ Entry.energy first = Some 6
    ∧ Entry.timestamp first = now - timedelta 5.
Proof.
  intros Hok Hnot.
  pose proof (create_demo_user_fresh token now db Hnot) as Hc.
  pose proof (get_entries_seeded token now db demo_entries Hok Hnot
                demo_entries_increasing) as Hg.
  pose proof (seeded_strict (next_id (map User.id (users db))) now
                (next_id (map Entry.id (entries db))) demo_entries
                demo_entries_increasing) as Hstrict.
  pose proof (seeded_Forall2 (next_id (map User.id (users db))) now
                (next_id (map Entry.id (entries db))) demo_entries) as Hfrom.
  destruct (seeded_demo_entries_head (next_id (map User.id (users db))) now
              (next_id (map Entry.id (entries db))))
    as (first & rest & Hcons & Hd & He & Ht).
  rewrite Hcons in Hc, Hg, Hstrict, Hfrom.
  eexists _, _, first, rest.
  split_and!.
  - exact Hc.
  - exact Hg.
  - by apply strict_desc_desc.
  - exact Hstrict.
  - exists {| User.id := next_id (map User.id (users db));
              User.secret_key := token |}.
    split_and!; [|reflexivity|exact Hfrom].
    apply elem_of_app. right. left.
  - exact Hd.
  - exact He.
  - exact Ht.
Qed.

Lemma demo_listing_newest_first_witness :
  ∃ response db1 first rest,
    create_demo_user "demo-key" 1700000000000000
      {| users := [User.mk 1 "k1"];
         entries := [Entry.mk 1 1 1800000000000000 None (Some 3)] |}
    = (Ok response, db1)
    ∧ get_entries "demo-key" db1 = (Ok (first :: rest), db1)
    ∧ Entry.description first = Some "Just had coffee"
    ∧ Entry.energy first = Some 6.
Proof.
  destruct (demo_listing_newest_first "demo-key" 1700000000000000
              {| users := [User.mk 1 "k1"];
                 entries := [Entry.mk 1 1 1800000000000000 None (Some 3)] |})
    as (response & db1 & first & rest & Hc & Hg & _ & _ & _ & Hd & He & _).
  - split; simpl.
    + repeat constructor.
    + apply NoDup_singleton.
    + apply NoDup_singleton.
    + apply NoDup_singleton.
  - simpl. intros Hin. apply list_elem_of_singleton in Hin. discriminate Hin.
  - exists response, db1, first, rest.
    split_and!; [exact Hc | exact Hg | exact Hd | exact He].
Defined.

Example demo_listing_example :
  option_map EntryResponse.from_attributes
    (head (match bind (create_demo_user "demo-key" 1700000000000000)
                   (λ _, get_entries "demo-key") empty_db with
           | (Ok l, _) => l
           | (Raise _, _) => []
           end))
  = Some (EntryResponse.mk 1 1699999700000000 (Some "Just had coffee") (Some 6)).
Proof. reflexivity. Qed.

(** * Further properties of the handlers *)

(** ** What each writing handler does to the store *)

Lemma create_new_user_cases token db :
  ((token ∈ map User.secret_key (users db))
   ∧ create_new_user token db = (Raise IntegrityError, db))
  ∨ ((token ∉ map User.secret_key (users db))
     ∧ create_new_user token db
       = (Ok (RedirectResponse ("/u/" +:+ token)),
          {| users := users db
                      ++ [{| User.id := next_id (map User.id (users db));
                             User.secret_key := token |}];
             entries := entries db |})).
Proof.
  destruct (decide (token ∈ map User.secret_key (users db))) as [Hin|Hnot].
  - left. split; [done|]. unfold create_new_user.
    by rewrite (bind_Raise _ _ _ _ _ (add_user_taken _ _ Hin)).
  - right. split; [done|]. unfold create_new_user.
    by rewrite (bind_Ok _ _ _ _ _ (add_user_fresh _ _ Hnot)).
Qed.

Lemma create_demo_user_cases token now db :
  ((token ∈ map User.secret_key (users db))
   ∧ create_demo_user token now db = (Raise IntegrityError, db))
  ∨ ((token ∉ map User.secret_key (users db))
     ∧ create_demo_user token now db
       = (Ok (RedirectResponse ("/u/" +:+ token)),
          {| users := users db
                      ++ [{| User.id := next_id (map User.id (users db));
                             User.secret_key := token |}];
             entries := entries db
                        ++ seeded (next_id (map User.id (users db))) now
                             (next_id (map Entry.id (entries db)))
                             demo_entries |})).
Proof.
  destruct (decide (token ∈ map User.secret_key (users db))) as [Hin|Hnot].
  - left. split; [done|]. unfold create_demo_user.
    by rewrite (bind_Raise _ _ _ _ _ (add_user_taken _ _ Hin)).
  - right. split; [done|]. by apply create_demo_user_fresh.
Qed.

Lemma POST_entries_cases secret body db :
  (∃ e, check_at_least_one body = Raise e
        ∧ POST_entries secret body db = (Raise e, db))
  ∨ (check_at_least_one body = Ok body
     ∧ (secret ∉ map User.secret_key (users db))
     ∧ POST_entries secret body db
       = (Raise (HTTPException 404 "User not found"), db))
  ∨ (check_at_least_one body = Ok body
     ∧ ∃ user,
         query_user_first secret db = (Ok (Some user), db)
         ∧ POST_entries secret body db
           = (Ok (EntryResponse.from_attributes
                    (inserted_row (User.id user) body db)),
              {| users := users db;
                 entries := entries db
                            ++ [inserted_row (User.id user) body db] |})).
Proof.
  destruct (check_at_least_one body) as [entry|e] eqn:Hc.
  - apply check_at_least_one_Ok_inv in Hc as Hentry. subst entry.
    destruct (decide (secret ∈ map User.secret_key (users db))) as [Hin|Hnot].
    + right. right. split; [done|].
      destruct (query_user_first_known _ _ Hin) as [user Hq].
      exists user. split; [done|]. by apply POST_entries_known.
    + right. left. split_and!; [done..|].
      rewrite POST_entries_valid by done.
      by rewrite (bind_Raise _ _ _ _ _ (create_entry_unknown _ _ _ Hnot)).
  - left. exists e. split; [done|]. by apply POST_entries_invalid.
Qed.

Lemma GET_entries_cases secret db :
  ((secret ∉ map User.secret_key (users db))
   ∧ GET_entries secret db
     = (Raise (HTTPException 404 "User not found"), db))
  ∨ (∃ user,
       query_user_first secret db = (Ok (Some user), db)
       ∧ GET_entries secret db
         = (Ok (map EntryResponse.from_attributes
                  (merge_sort timestamp_desc
                     (filter (λ e, Entry.user_id e = User.id user)
                        (entries db)))), db)).
Proof.
  destruct (decide (secret ∈ map User.secret_key (users db))) as [Hin|Hnot].
  - right. destruct (query_user_first_known _ _ Hin) as [user Hq].
    exists user. split; [done|]. unfold GET_entries.
    by rewrite (bind_Ok _ _ _ _ _ (get_entries_known _ _ _ Hq)).
  - left. split; [done|]. unfold GET_entries.
    by rewrite (bind_Raise _ _ _ _ _ (get_entries_unknown _ _ Hnot)).
Qed.

Lemma get_user_page_cases index_html secret db :
  ((secret ∉ map User.secret_key (users db))
   ∧ get_user_page index_html secret db
     = (Raise (HTTPException 404 "User not found"), db))
  ∨ ((secret ∈ map User.secret_key (users db))
     ∧ get_user_page index_html secret db = (Ok (HTMLResponse index_html), db)).
Proof.
  destruct (decide (secret ∈ map User.secret_key (users db))) as [Hin|Hnot].
  - right. split; [done|].
    destruct (query_user_first_known _ _ Hin) as [user Hq].
    unfold get_user_page. by rewrite (bind_Ok _ _ _ _ _ Hq).
  - left. split; [done|]. by apply get_user_page_unknown.
Qed.

Lemma serve_appends r db :
  ∃ us es,
    serve r db = {| users := users db ++ us; entries := entries db ++ es |}.
Proof.
  assert (db = {| users := users db ++ []; entries := entries db ++ [] |})
    as Hsame by (rewrite !app_nil_r; by destruct db).
  destruct r as [|token|token now|index_html secret|secret|secret body]; simpl.
  - exists [], []. exact Hsame.
  - destruct (create_new_user_cases token db) as [[_ ->]|[_ ->]]; simpl.
    + exists [], []. exact Hsame.
    + eexists _, []. rewrite (app_nil_r (entries db)). reflexivity.
  - destruct (create_demo_user_cases token now db) as [[_ ->]|[_ ->]]; simpl.
    + exists [], []. exact Hsame.
    + by eexists _, _.
  - rewrite get_user_page_db. exists [], []. exact Hsame.
  - rewrite GET_entries_db. exists [], []. exact Hsame.
  - destruct (POST_entries_cases secret body db)
      as [(e & _ & ->)|[(_ & _ & ->)|(_ & user & _ & ->)]]; simpl.
    + exists [], []. exact Hsame.
    + exists [], []. exact Hsame.
    + eexists [], _. rewrite (app_nil_r (users db)). reflexivity.
Qed.

Lemma serve_all_appends rs db :
  ∃ us es,
    serve_all rs db
    = {| users := users db ++ us; entries := entries db ++ es |}.
Proof.
  revert db. induction rs as [|r rs IH]; intros db.
  - exists [], []. rewrite !app_nil_r. by destruct db.
  - destruct (serve_appends r db) as (us & es & Hr).
    destruct (IH (serve r db)) as (us' & es' & Hrs).
    exists (us ++ us'), (es ++ es').
    change (serve_all (r :: rs) db) with (serve_all rs (serve r db)).
    rewrite Hrs, Hr. simpl.
    by rewrite !app_assoc.
Qed.

(** ** The store only grows *)

(** X1. Whatever requests are served, in whatever order, the two tables
    only grow at their end: the users and entries present before the run
    are a prefix of the tables after it, so every row is still at its index,
    unchanged.  No handler updates or deletes a row. *)
Theorem store_append_only (rs : list Request) (db : DB) :
  users db `prefix_of` users (serve_all rs db)
  ∧ entries db `prefix_of` entries (serve_all rs db)
  ∧ (∀ (i : nat) (u : User.t),
       users db !! i = Some u → users (serve_all rs db) !! i = Some u)
  ∧ (∀ (i : nat) (e : Entry.t),
       entries db !! i = Some e → entries (serve_all rs db) !! i = Some e).
Proof.
  destruct (serve_all_appends rs db) as (us & es & ->). simpl.
  split_and!.
  - by exists us.
  - by exists es.
  - intros i u Hi. by apply lookup_app_l_Some.
  - intros i e Hi. by apply lookup_app_l_Some.
Qed.

(** X2. A request that is answered with an error leaves the store exactly
    as it was: the 404 and 422 answers, and a rejected insert of a user,
    are raised before anything is written. *)
Theorem failed_request_keeps_store (r : Request) (db : DB) (e : Error) :
  failure r db = Some e → serve r db = db.
Proof.
  unfold failure, error_of.
  destruct r as [|token|token now|index_html secret|secret|secret body];
    simpl; intros Hfail.
  - done.
  - destruct (create_new_user_cases token db) as [[_ Hc]|[_ Hc]];
      rewrite Hc in Hfail |- *; by simplify_eq/=.
  - destruct (create_demo_user_cases token now db) as [[_ Hc]|[_ Hc]];
      rewrite Hc in Hfail |- *; by simplify_eq/=.
  - apply get_user_page_db.
  - apply GET_entries_db.
  - destruct (POST_entries_cases secret body db)
      as [(e' & _ & Hc)|[(_ & _ & Hc)|(_ & user & _ & Hc)]];
      rewrite Hc in Hfail |- *; by simplify_eq/=.
Qed.

Lemma failed_request_keeps_store_witness :
  serve (ReqCreate "k1" (EntryCreate.mk 10 (Some "nap") (Some 12)))
    {| users := [User.mk 1 "k1"]; entries := [Entry.mk 1 1 5 None (Some 3)] |}
  = {| users := [User.mk 1 "k1"]; entries := [Entry.mk 1 1 5 None (Some 3)] |}.
Proof.
  apply (failed_request_keeps_store
           (ReqCreate "k1" (EntryCreate.mk 10 (Some "nap") (Some 12)))
           {| users := [User.mk 1 "k1"];
              entries := [Entry.mk 1 1 5 None (Some 3)] |}
           (ValueError "Energy must be between 1 and 10")).
  reflexivity.
Defined.

(** ** When a request succeeds *)

(** X3. The creation route succeeds exactly when the body passes the
    validator and the secret is that of a user; it then answers with the
    stored row and appends that one row. *)
Theorem POST_entries_succeeds_iff
    (secret : string) (body : EntryCreate.t) (db : DB) :
  (error_of (POST_entries secret body db) = None
   ↔ check_at_least_one body = Ok body
     ∧ secret ∈ map User.secret_key (users db))
  ∧ (error_of (POST_entries secret body db) = None →
     ∃ db_entry,
       POST_entries secret body db
       = (Ok (EntryResponse.from_attributes db_entry),
          {| users := users db; entries := entries db ++ [db_entry] |})).
Proof.
  unfold error_of.
  destruct (POST_entries_cases secret body db)
    as [(e & Hv & Hc)|[(Hv & Hnot & Hc)|(Hv & user & Hq & Hc)]];
    rewrite Hc; simpl.
  - split; [|done]. split; [done|]. intros [Hok _]. by rewrite Hok in Hv.
  - split; [|done]. split; [done|]. by intros [_ Hin].
  - split; [|by eauto]. split; [|done]. intros _. split; [done|].
    apply query_user_first_Some in Hq as [Hu <-].
    apply list_elem_of_fmap. eauto.
Qed.

(** X4. The two lookups, the page and the listing, never change the store
    and succeed exactly when the secret is that of a user; otherwise both
    raise the 404 "User not found".  The page served is the same file
    content for every user. *)
Theorem lookups_succeed_iff (index_html secret : string) (db : DB) :
  snd (get_user_page index_html secret db) = db
  ∧ snd (GET_entries secret db) = db
  ∧ (fst (get_user_page index_html secret db) = Ok (HTMLResponse index_html)
     ↔ secret ∈ map User.secret_key (users db))
  ∧ (error_of (GET_entries secret db) = None
     ↔ secret ∈ map User.secret_key (users db))
  ∧ (secret ∉ map User.secret_key (users db) →
     fst (get_user_page index_html secret db)
     = Raise (HTTPException 404 "User not found")
     ∧ fst (GET_entries secret db)
       = Raise (HTTPException 404 "User not found")).
Proof.
  split_and!.
  - apply get_user_page_db.
  - apply GET_entries_db.
  - destruct (get_user_page_cases index_html secret db) as [[Hnot ->]|[Hin ->]];
      simpl; split; done.
  - unfold error_of.
    destruct (GET_entries_cases secret db) as [[Hnot ->]|(user & Hq & ->)];
      simpl; split; try done.
    intros _. apply query_user_first_Some in Hq as [Hu <-].
    apply list_elem_of_fmap. eauto.
  - intros Hnot. rewrite get_user_page_unknown by done.
    destruct (GET_entries_cases secret db) as [[_ ->]|(user & Hq & _)];
      [done|].
    apply query_user_first_Some in Hq as [Hu <-].
    destruct Hnot. apply list_elem_of_fmap. eauto.
Qed.

Lemma POST_entries_succeeds_iff_witness :
  ∃ db_entry,
    POST_entries "k1" (EntryCreate.mk 10 (Some "nap") None)
      {| users := [User.mk 1 "k1"]; entries := [] |}
    = (Ok (EntryResponse.from_attributes db_entry),
       {| users := [User.mk 1 "k1"]; entries := [db_entry] |}).
Proof.
  apply (proj2 (POST_entries_succeeds_iff "k1"
                  (EntryCreate.mk 10 (Some "nap") None)
                  {| users := [User.mk 1 "k1"]; entries := [] |})).
  reflexivity.
Defined.

Lemma lookups_succeed_iff_witness :
  fst (get_user_page "<html></html>" "k2"
         {| users := [User.mk 1 "k1"]; entries := [] |})
  = Raise (HTTPException 404 "User not found")
  ∧ fst (GET_entries "k2" {| users := [User.mk 1 "k1"]; entries := [] |})
    = Raise (HTTPException 404 "User not found").
Proof.
  apply (lookups_succeed_iff "<html></html>" "k2"
           {| users := [User.mk 1 "k1"]; entries := [] |}).
  simpl. intros Hin. apply list_elem_of_singleton in Hin. discriminate Hin.
Defined.

(** ** A secret keeps its user, a listing keeps its entries *)

Lemma query_user_first_app secret db db' user us :
  query_user_first secret db = (Ok (Some user), db) →
  users db' = users db ++ us →
  query_user_first secret db' = (Ok (Some user), db').
Proof.
  unfold query_user_first. intros [= Hq] Hus. rewrite Hus.
  rewrite list.filter_app.
  destruct (filter _ (users db)) as [|u l]; [done|].
  simpl in *. by simplify_eq.
Qed.

Lemma GET_entries_known secret db user :
  query_user_first secret db = (Ok (Some user), db) →
  GET_entries secret db
  = (Ok (map EntryResponse.from_attributes
           (merge_sort timestamp_desc
              (filter (λ e, Entry.user_id e = User.id user) (entries db)))),
     db).
Proof.
  intros Hq. unfold GET_entries.
  by rewrite (bind_Ok _ _ _ _ _ (get_entries_known _ _ _ Hq)).
Qed.

Lemma GET_entries_Ok_inv secret db l db' :
  GET_entries secret db = (Ok l, db') →
  ∃ user,
    query_user_first secret db = (Ok (Some user), db)
    ∧ db' = db
    ∧ l = map EntryResponse.from_attributes
            (merge_sort timestamp_desc
               (filter (λ e, Entry.user_id e = User.id user) (entries db))).
Proof.
  intros Hg.
  destruct (GET_entries_cases secret db) as [[_ Hc]|(user & Hq & Hc)];
    rewrite Hc in Hg; [done|].
  exists user. by simplify_eq.
Qed.

(** X5. Once a secret resolves to a user it resolves to that same user
    after any run of requests: users are never changed or removed, and a
    later user cannot take the place of the first match. *)
Theorem resolution_stable
    (secret : string) (user : User.t) (rs : list Request) (db : DB) :
  query_user_first secret db = (Ok (Some user), db) →
  query_user_first secret (serve_all rs db)
  = (Ok (Some user), serve_all rs db).
Proof.
  intros Hq. destruct (serve_all_appends rs db) as (us & es & Hrun).
  apply (query_user_first_app secret db _ user us); [done|].
  by rewrite Hrun.
Qed.

Lemma resolution_stable_witness :
  query_user_first "k1"
    (serve_all [ReqNew "k1"; ReqDemo "k2" 1700000000000000;
                ReqCreate "k1" (EntryCreate.mk 5 None (Some 4))]
       {| users := [User.mk 7 "k1"]; entries := [] |})
  = (Ok (Some (User.mk 7 "k1")),
     serve_all [ReqNew "k1"; ReqDemo "k2" 1700000000000000;
                ReqCreate "k1" (EntryCreate.mk 5 None (Some 4))]
       {| users := [User.mk 7 "k1"]; entries := [] |}).
Proof.
  apply (resolution_stable "k1" (User.mk 7 "k1")
           [ReqNew "k1"; ReqDemo "k2" 1700000000000000;
            ReqCreate "k1" (EntryCreate.mk 5 None (Some 4))]
           {| users := [User.mk 7 "k1"]; entries := [] |}).
  reflexivity.
Defined.

(** X6. A listing never loses an entry: whatever requests are served after
    a successful listing, the same secret still lists successfully and
    every entry of the earlier listing is in the later one, as often as it
    was. *)
Theorem listing_only_grows
    (secret : string) (l : list EntryResponse.t) (rs : list Request)
    (db : DB) :
  GET_entries secret db = (Ok l, db) →
  ∃ l',
    GET_entries secret (serve_all rs db) = (Ok l', serve_all rs db)
    ∧ l ⊆+ l'.
Proof.
  intros Hg. apply GET_entries_Ok_inv in Hg as (user & Hq & _ & ->).
  destruct (serve_all_appends rs db) as (us & es & ->).
  eexists. split.
  - apply GET_entries_known.
    by apply (query_user_first_app secret db _ user us).
  - simpl. apply fmap_submseteq. rewrite !merge_sort_Permutation.
    rewrite list.filter_app. by apply submseteq_inserts_r.
Qed.

Lemma listing_only_grows_witness :
  ∃ l',
    GET_entries "k1"
      (serve_all [ReqCreate "k1" (EntryCreate.mk 9 None (Some 4));
                  ReqNew "k2"]
         {| users := [User.mk 1 "k1"];
            entries := [Entry.mk 1 1 5 (Some "tea") None] |})
    = (Ok l',
       serve_all [ReqCreate "k1" (EntryCreate.mk 9 None (Some 4));
                  ReqNew "k2"]
         {| users := [User.mk 1 "k1"];
            entries := [Entry.mk 1 1 5 (Some "tea") None] |})
    ∧ [EntryResponse.mk 1 5 (Some "tea") None] ⊆+ l'.
Proof.
  apply (listing_only_grows "k1" [EntryResponse.mk 1 5 (Some "tea") None]
           [ReqCreate "k1" (EntryCreate.mk 9 None (Some 4)); ReqNew "k2"]
           {| users := [User.mk 1 "k1"];
              entries := [Entry.mk 1 1 5 (Some "tea") None] |}).
  reflexivity.
Defined.

(** X7. After a successful creation the listing for the same secret is
    the earlier listing with the created entry added: one entry more, all
    the earlier ones kept, still in descending order of timestamp. *)
Theorem listing_after_creation
    (secret : string) (body : EntryCreate.t) (db : DB)
    (l : list EntryResponse.t) :
  GET_entries secret db = (Ok l, db) →
  check_at_least_one body = Ok body →
  ∃ created db' l',
    POST_entries secret body db = (Ok created, db')
    ∧ GET_entries secret db' = (Ok l', db')
    ∧ l' ≡ₚ created :: l
    ∧ length l' = S (length l)
    ∧ StronglySorted (λ a b, EntryResponse.timestamp b
                             ≤ EntryResponse.timestamp a) l'.
Proof.
  intros Hg Hok. apply GET_entries_Ok_inv in Hg as (user & Hq & _ & ->).
  set (row := inserted_row (User.id user) body db).
  set (db' := {| users := users db; entries := entries db ++ [row] |}).
  assert (query_user_first secret db' = (Ok (Some user), db')) as Hq'
    by (by apply (query_user_first_same_users secret db db')).
  assert (map EntryResponse.from_attributes
            (merge_sort timestamp_desc
               (filter (λ e, Entry.user_id e = User.id user) (entries db')))
          ≡ₚ EntryResponse.from_attributes row
             :: map EntryResponse.from_attributes
                  (merge_sort timestamp_desc
                     (filter (λ e, Entry.user_id e = User.id user)
                        (entries db)))) as Hperm.
  { rewrite <- fmap_cons. apply fmap_Permutation.
    rewrite !merge_sort_Permutation. simpl.
    rewrite list.filter_app, filter_cons_True, filter_nil by done.
    by rewrite Permutation_app_comm. }
  eexists _, db', _. split_and!.
  - by apply POST_entries_known.
  - by apply GET_entries_known.
  - exact Hperm.
  - by rewrite Hperm.
  - generalize (filter (λ e, Entry.user_id e = User.id user) (entries db')).
    intros rows.
    pose proof (StronglySorted_merge_sort timestamp_desc rows) as Hs.
    induction Hs as [|e rest _ IH He]; simpl; constructor; [done|].
    rewrite list.Forall_forall in He. apply list.Forall_forall.
    intros x Hx. apply list_elem_of_fmap in Hx as (e' & -> & He').
    by apply He.
Qed.

Lemma listing_after_creation_witness :
  ∃ created db' l',
    POST_entries "k1" (EntryCreate.mk 9 None (Some 4))
      {| users := [User.mk 1 "k1"];
         entries := [Entry.mk 1 1 5 (Some "tea") None] |}
    = (Ok created, db')
    ∧ GET_entries "k1" db' = (Ok l', db')
    ∧ l' ≡ₚ created :: [EntryResponse.mk 1 5 (Some "tea") None].
Proof.
  destruct (listing_after_creation "k1" (EntryCreate.mk 9 None (Some 4))
              {| users := [User.mk 1 "k1"];
                 entries := [Entry.mk 1 1 5 (Some "tea") None] |}
              [EntryResponse.mk 1 5 (Some "tea") None] eq_refl eq_refl)
    as (created & db' & l' & Hp & Hg & Hperm & _).
  exists created, db', l'. split_and!; [exact Hp | exact Hg | exact Hperm].
Defined.

(** ** Users do not see each other *)

Lemma NoDup_map_eq {A B} (f : A → B) (l : list A) x y :
  NoDup (map f l) → x ∈ l → y ∈ l → f x = f y → x = y.
Proof.
  induction l as [|z l IH]; simpl; intros Hnd Hx Hy Heq.
  - by apply elem_of_nil in Hx.
  - apply list.NoDup_cons in Hnd as [Hz Hnd].
    apply elem_of_cons in Hx as [->|Hx], Hy as [->|Hy].
    + done.
    + destruct Hz. rewrite Heq. by apply list_elem_of_fmap_2.
    + destruct Hz. rewrite <- Heq. by apply list_elem_of_fmap_2.
    + by apply IH.
Qed.

Lemma filter_snoc_other uid (e : Entry.t) (l : list Entry.t) :
  Entry.user_id e ≠ uid →
  filter (λ e, Entry.user_id e = uid) (l ++ [e])
  = filter (λ e, Entry.user_id e = uid) l.
Proof.
  intros Hne.
  rewrite list.filter_app, filter_cons_False, filter_nil by done.
  apply app_nil_r.
Qed.

(** X8. On a store that satisfies its integrity constraints, a creation
    request made under one secret, whatever its body and its outcome, does
    not change what any other secret lists. *)
Theorem creation_isolated
    (secret other : string) (body : EntryCreate.t) (db : DB) :
  db_ok db →
  secret ≠ other →
  fst (GET_entries other (serve (ReqCreate secret body) db))
  = fst (GET_entries other db).
Proof.
  intros Hok Hne. simpl.
  destruct (POST_entries_cases secret body db)
    as [(e & _ & ->)|[(_ & _ & ->)|(_ & user & Hq & ->)]]; [done..|].
  simpl.
  set (row := inserted_row (User.id user) body db).
  set (db' := {| users := users db; entries := entries db ++ [row] |}).
  destruct (GET_entries_cases other db) as [[Hnot Hg]|(user' & Hq' & Hg)].
  - rewrite Hg.
    destruct (GET_entries_cases other db') as [[_ ->]|(u & Hu & _)]; [done|].
    apply query_user_first_Some in Hu as [Hu <-].
    destruct Hnot. apply list_elem_of_fmap. eauto.
  - rewrite Hg.
    rewrite (GET_entries_known other db' user')
      by (by apply (query_user_first_same_users other db db')).
    simpl. rewrite filter_snoc_other; [done|].
    apply query_user_first_Some in Hq as [Hu Hk].
    apply query_user_first_Some in Hq' as [Hu' Hk'].
    simpl. intros Hid.
    apply (NoDup_map_eq User.id (users db)) in Hid;
      [|apply Hok|done|done].
    subst user'. congruence.
Qed.

Lemma creation_isolated_witness :
  fst (GET_entries "k2"
         (serve (ReqCreate "k1" (EntryCreate.mk 9 None (Some 4)))
            {| users := [User.mk 1 "k1"; User.mk 2 "k2"];
               entries := [Entry.mk 1 2 5 (Some "tea") None] |}))
  = fst (GET_entries "k2"
           {| users := [User.mk 1 "k1"; User.mk 2 "k2"];
              entries := [Entry.mk 1 2 5 (Some "tea") None] |}).
Proof.
  apply (creation_isolated "k1" "k2" (EntryCreate.mk 9 None (Some 4))
           {| users := [User.mk 1 "k1"; User.mk 2 "k2"];
              entries := [Entry.mk 1 2 5 (Some "tea") None] |}).
  - split; simpl.
    + repeat constructor.
    + by apply (bool_decide_unpack _).
    + by apply (bool_decide_unpack _).
    + by apply (bool_decide_unpack _).
  - discriminate.
Defined.

(** X9. Creating a user, plain or demo, does not change what the secret of
    an existing user lists: the new user's rows are stored under a key that
    no existing user has. *)
Theorem new_users_leave_listings
    (secret token : string) (now : datetime) (db : DB) :
  secret ∈ map User.secret_key (users db) →
  fst (GET_entries secret (serve (ReqNew token) db))
  = fst (GET_entries secret db)
  ∧ fst (GET_entries secret (serve (ReqDemo token now) db))
    = fst (GET_entries secret db).
Proof.
  intros Hin. destruct (query_user_first_known _ _ Hin) as [user Hq].
  rewrite (GET_entries_known _ _ _ Hq). cbn [serve fst]. split.
  - destruct (create_new_user_cases token db) as [[_ ->]|[_ ->]]; cbn [snd].
    + by rewrite (GET_entries_known _ _ _ Hq).
    + by rewrite (GET_entries_known secret _ user)
        by (by eapply query_user_first_app).
  - destruct (create_demo_user_cases token now db) as [[_ ->]|[_ ->]]; cbn [snd].
    + by rewrite (GET_entries_known _ _ _ Hq).
    + rewrite (GET_entries_known secret _ user)
        by (by eapply query_user_first_app).
      cbn [fst entries]. rewrite list.filter_app.
      rewrite (filter_user_id_none (User.id user) (seeded _ _ _ _)).
      * by rewrite app_nil_r.
      * eapply Forall_impl; [|apply seeded_owner].
        intros e He Hid. simpl in He.
        apply query_user_first_Some in Hq as [Hu _].
        apply (next_id_fresh (map User.id (users db))).
        rewrite <- He, Hid. by apply list_elem_of_fmap_2.
Qed.

Lemma new_users_leave_listings_witness :
  fst (GET_entries "k1"
         (serve (ReqDemo "k2" 1700000000000000)
            {| users := [User.mk 1 "k1"];
               entries := [Entry.mk 1 1 5 (Some "tea") None] |}))
  = fst (GET_entries "k1"
           {| users := [User.mk 1 "k1"];
              entries := [Entry.mk 1 1 5 (Some "tea") None] |}).
Proof.
  apply (new_users_leave_listings "k1" "k2" 1700000000000000
           {| users := [User.mk 1 "k1"];
              entries := [Entry.mk 1 1 5 (Some "tea") None] |}).
  simpl. left.
Defined.

(** ** A new user *)

(** X10. On a store that satisfies its integrity constraints, a user just
    created through [create_new_user] lists no entry: the listing under the
    new secret succeeds with the empty list. *)
Theorem new_user_lists_nothing (token : string) (db : DB) :
  db_ok db →
  token ∉ map User.secret_key (users db) →
  GET_entries token (serve (ReqNew token) db)
  = (Ok [], serve (ReqNew token) db).
Proof.
  intros Hok Hnot. simpl.
  destruct (create_new_user_cases token db) as [[Hin _]|[_ ->]]; [done|].
  simpl.
  rewrite (GET_entries_known token _
             {| User.id := next_id (map User.id (users db));
                User.secret_key := token |})
    by (by apply query_user_first_new).
  simpl. rewrite (filter_foreign db); [done..|]. apply next_id_fresh.
Qed.

Lemma new_user_lists_nothing_witness :
  GET_entries "k2"
    (serve (ReqNew "k2")
       {| users := [User.mk 1 "k1"];
          entries := [Entry.mk 1 1 5 (Some "tea") None] |})
  = (Ok [],
     serve (ReqNew "k2")
       {| users := [User.mk 1 "k1"];
          entries := [Entry.mk 1 1 5 (Some "tea") None] |}).
Proof.
  apply (new_user_lists_nothing "k2"
           {| users := [User.mk 1 "k1"];
              entries := [Entry.mk 1 1 5 (Some "tea") None] |}).
  - split; simpl.
    + repeat constructor.
    + by apply (bool_decide_unpack _).
    + by apply (bool_decide_unpack _).
    + by apply (bool_decide_unpack _).
  - simpl. intros Hin. apply list_elem_of_singleton in Hin. discriminate Hin.
Defined.

(** X11. The redirect that [create_new_user] and [create_demo_user] answer
    with leads to a page that is served: the secret in the redirect's path
    is the new user's, and [get_user_page] under it returns the page. *)
Theorem redirect_target_is_served
    (index_html token : string) (now : datetime) (db : DB) :
  token ∉ map User.secret_key (users db) →
  (∃ db',
     create_new_user token db = (Ok (RedirectResponse ("/u/" +:+ token)), db')
     ∧ get_user_page index_html token db' = (Ok (HTMLResponse index_html), db'))
  ∧ (∃ db',
       create_demo_user token now db
       = (Ok (RedirectResponse ("/u/" +:+ token)), db')
       ∧ get_user_page index_html token db'
         = (Ok (HTMLResponse index_html), db')).
Proof.
  intros Hnot.
  set (user := {| User.id := next_id (map User.id (users db));
                  User.secret_key := token |}).
  pose proof (query_user_first_new token db user Hnot eq_refl) as Hq.
  split.
  - destruct (create_new_user_cases token db) as [[Hin _]|[_ Hc]]; [done|].
    eexists. split; [exact Hc|].
    unfold get_user_page. by rewrite (bind_Ok _ _ _ _ _ Hq).
  - destruct (create_demo_user_cases token now db) as [[Hin _]|[_ Hc]]; [done|].
    eexists. split; [exact Hc|].
    match goal with
    | |- get_user_page _ _ ?db' = _ =>
        pose proof (query_user_first_same_users token
                      {| users := users db ++ [user]; entries := entries db |}
                      db' (Some user) eq_refl Hq) as Hq'
    end.
    unfold get_user_page. by rewrite (bind_Ok _ _ _ _ _ Hq').
Qed.

Lemma redirect_target_is_served_witness :
  ∃ db',
    create_new_user "k2" {| users := [User.mk 1 "k1"]; entries := [] |}
    = (Ok (RedirectResponse "/u/k2"), db')
    ∧ get_user_page "<html></html>" "k2" db'
      = (Ok (HTMLResponse "<html></html>"), db').
Proof.
  apply (redirect_target_is_served "<html></html>" "k2" 0
           {| users := [User.mk 1 "k1"]; entries := [] |}).
  simpl. intros Hin. apply list_elem_of_singleton in Hin. discriminate Hin.
Defined.

(** ** Invariants of the store along any run *)

Lemma serve_all_cons r rs db :
  serve_all (r :: rs) db = serve_all rs (serve r db).
Proof. done. Qed.

(** X12. The integrity constraints of the store are kept by every run of
    requests: every entry belongs to a user of the store, and no key and no
    secret key occurs twice.  In particular an entry is only ever stored
    under the id of the user its secret resolved to. *)
Theorem integrity_kept (rs : list Request) (db : DB) :
  db_ok db → db_ok (serve_all rs db).
Proof.
  revert db. induction rs as [|r rs IH]; intros db Hok; [done|].
  rewrite serve_all_cons. by apply IH, serve_ok.
Qed.

Lemma integrity_kept_witness :
  db_ok (serve_all [ReqNew "k1"; ReqCreate "k1" (EntryCreate.mk 9 None (Some 4));
                    ReqDemo "k2" 1700000000000000]
           empty_db).
Proof.
  apply (integrity_kept
           [ReqNew "k1"; ReqCreate "k1" (EntryCreate.mk 9 None (Some 4));
            ReqDemo "k2" 1700000000000000] empty_db).
  split; simpl; constructor.
Defined.

Lemma check_at_least_one_valid uid body db :
  check_at_least_one body = Ok body →
  entry_valid (inserted_row uid body db).
Proof.
  unfold check_at_least_one, entry_valid. simpl. intros Hc.
  destruct (EntryCreate.description body) as [d|],
           (EntryCreate.energy body) as [n|]; simpl in Hc;
    try discriminate.
  - split; [by left|]. intros m [= <-].
    destruct (Z.ltb_spec n 1), (Z.gtb_spec n 10); simpl in Hc;
      try discriminate; lia.
  - split; [by left|]. by intros m.
  - split; [by right|]. intros m [= <-].
    destruct (Z.ltb_spec n 1), (Z.gtb_spec n 10); simpl in Hc;
      try discriminate; lia.
Qed.

Lemma seeded_valid uid now key rows :
  Forall (λ d, ∀ n, demo_energy d = Some n → 1 ≤ n ≤ 10) rows →
  Forall entry_valid (seeded uid now key rows).
Proof.
  intros Hrows. revert key.
  induction Hrows as [|d rows Hd _ IH]; intros key; simpl.
  - constructor.
  - constructor; [|apply IH]. split; simpl; [by left|done].
Qed.

Lemma demo_entries_energy :
  Forall (λ d, ∀ n, demo_energy d = Some n → 1 ≤ n ≤ 10) demo_entries.
Proof.
  unfold demo_entries.
  repeat (constructor; [simpl; intros n [= <-]; lia|]). constructor.
Qed.

Lemma serve_valid r db :
  Forall entry_valid (entries db) →
  Forall entry_valid (entries (serve r db)).
Proof.
  intros Hval.
  destruct r as [|token|token now|index_html secret|secret|secret body];
    cbn [serve].
  - done.
  - by destruct (create_new_user_cases token db) as [[_ ->]|[_ ->]].
  - destruct (create_demo_user_cases token now db) as [[_ ->]|[_ ->]];
      cbn [snd entries]; [done|].
    apply Forall_app. split; [done|].
    apply seeded_valid, demo_entries_energy.
  - by rewrite get_user_page_db.
  - by rewrite GET_entries_db.
  - destruct (POST_entries_cases secret body db)
      as [(e & _ & ->)|[(_ & _ & ->)|(Hc & user & _ & ->)]];
      cbn [snd entries]; [done..|].
    apply Forall_app. split; [done|].
    constructor; [|constructor]. by apply check_at_least_one_valid.
Qed.

(** X13. Every row that the handlers store has a description or an
    energy, and an energy within 1..10: if the entries of a store satisfy
    this, so do the entries after any run of requests.  The validator
    guards the creation route and the demo table respects the rule. *)
Theorem entries_stay_valid (rs : list Request) (db : DB) :
  Forall entry_valid (entries db) →
  Forall entry_valid (entries (serve_all rs db)).
Proof.
  revert db. induction rs as [|r rs IH]; intros db Hval; [done|].
  rewrite serve_all_cons. by apply IH, serve_valid.
Qed.

Lemma entries_stay_valid_witness :
  Forall entry_valid
    (entries (serve_all [ReqNew "k1";
                         ReqCreate "k1" (EntryCreate.mk 9 None (Some 4));
                         ReqCreate "k1" (EntryCreate.mk 9 None (Some 40));
                         ReqDemo "k2" 1700000000000000]
                empty_db)).
Proof.
  apply (entries_stay_valid
           [ReqNew "k1"; ReqCreate "k1" (EntryCreate.mk 9 None (Some 4));
            ReqCreate "k1" (EntryCreate.mk 9 None (Some 40));
            ReqDemo "k2" 1700000000000000] empty_db).
  simpl. constructor.
Defined.

(** ** The place of a new entry in the listing *)

Lemma newest_is_head (row : Entry.t) (rows sorted : list Entry.t) :
  StronglySorted timestamp_desc sorted →
  sorted ≡ₚ row :: rows →
  Forall (λ e, Entry.timestamp e < Entry.timestamp row) rows →
  ∃ rest, sorted = row :: rest ∧ rest ≡ₚ rows.
Proof.
  intros Hs Hperm Hnew.
  destruct sorted as [|x rest].
  { by apply Permutation_nil_cons in Hperm. }
  assert (x = row) as ->.
  { assert (x ∈ row :: rows) as Hx by (rewrite <- Hperm; left).
    apply elem_of_cons in Hx as [Hx|Hx]; [done|].
    rewrite list.Forall_forall in Hnew. apply Hnew in Hx.
    assert (row ∈ x :: rest) as Hrow by (rewrite Hperm; left).
    apply elem_of_cons in Hrow as [Hrow|Hrow]; [done|].
    apply StronglySorted_inv in Hs as [_ Hall].
    rewrite list.Forall_forall in Hall. apply Hall in Hrow.
    unfold timestamp_desc in Hrow. lia. }
  exists rest. split; [done|]. by eapply Permutation_cons_inv.
Qed.

(** X14. The place of an entry in the listing is decided by its timestamp,
    not by the time of its creation: an entry created with a timestamp
    newer than every listed entry comes first in the next listing, followed
    by the earlier entries. *)
Theorem newest_entry_listed_first
    (secret : string) (body : EntryCreate.t) (db : DB)
    (l : list EntryResponse.t) :
  GET_entries secret db = (Ok l, db) →
  check_at_least_one body = Ok body →
  Forall (λ r, EntryResponse.timestamp r < EntryCreate.timestamp body) l →
  ∃ created db' rest,
    POST_entries secret body db = (Ok created, db')
    ∧ GET_entries secret db' = (Ok (created :: rest), db')
    ∧ EntryResponse.timestamp created = EntryCreate.timestamp body
    ∧ rest ≡ₚ l.
Proof.
  intros Hg Hok Hnew. apply GET_entries_Ok_inv in Hg as (user & Hq & _ & ->).
  set (row := inserted_row (User.id user) body db).
  set (db' := {| users := users db; entries := entries db ++ [row] |}).
  set (owned := filter (λ e, Entry.user_id e = User.id user) (entries db))
    in *.
  assert (query_user_first secret db' = (Ok (Some user), db')) as Hq'
    by (by apply (query_user_first_same_users secret db db')).
  assert (filter (λ e, Entry.user_id e = User.id user) (entries db')
          = owned ++ [row]) as Hfilter.
  { simpl. by rewrite list.filter_app, filter_cons_True, filter_nil. }
  destruct (newest_is_head row owned
              (merge_sort timestamp_desc (owned ++ [row])))
    as (rest & Hsorted & Hrest).
  - apply StronglySorted_merge_sort; apply _.
  - rewrite merge_sort_Permutation. by rewrite Permutation_app_comm.
  - apply list.Forall_forall. intros e He.
    rewrite list.Forall_forall in Hnew.
    apply (Hnew (EntryResponse.from_attributes e)).
    apply list_elem_of_fmap_2. by rewrite merge_sort_Permutation.
  - exists (EntryResponse.from_attributes row), db',
      (map EntryResponse.from_attributes rest).
    split_and!.
    + by apply POST_entries_known.
    + rewrite (GET_entries_known _ _ _ Hq'), Hfilter, Hsorted. done.
    + done.
    + apply fmap_Permutation. by rewrite Hrest, merge_sort_Permutation.
Qed.

Lemma newest_entry_listed_first_witness :
  ∃ created db' rest,
    POST_entries "k1" (EntryCreate.mk 9 None (Some 4))
      {| users := [User.mk 1 "k1"];
         entries := [Entry.mk 1 1 5 (Some "tea") None] |}
    = (Ok created, db')
    ∧ GET_entries "k1" db' = (Ok (created :: rest), db')
    ∧ EntryResponse.timestamp created = 9
    ∧ rest ≡ₚ [EntryResponse.mk 1 5 (Some "tea") None].
Proof.
  apply (newest_entry_listed_first "k1" (EntryCreate.mk 9 None (Some 4))
           {| users := [User.mk 1 "k1"];
              entries := [Entry.mk 1 1 5 (Some "tea") None] |}
           [EntryResponse.mk 1 5 (Some "tea") None]).
  - reflexivity.
  - reflexivity.
  - repeat constructor.
Defined.
